(** * Brainwave_Elara frontend: submission form and result poller

  A shallow embedding of the two pieces of logic of the React client:

  - [Form.jsx]: the handlers [validateFile], [toggleTech] and
    [handleSubmit] over the [formData] state object;
  - [Verify.jsx]: the [setInterval] poll loop, run on an explicit event
    queue (timer firings and request outcomes ordered by time).

  Strings are Rocq strings, the JSON payloads are a small inductive type,
  React state is passed explicitly, and what a handler does to the outside
  world (alerts, requests, navigation) is returned as a trace.  Between
  the two pages stands the browser: the URL parser behind
  [window.location.href] and the query decoder behind [URLSearchParams],
  as the URL Standard describes them. *)

From Stdlib Require Import String Ascii List Bool Arith NArith Lia.
Import ListNotations.
Local Open Scope string_scope.
Set Warnings "-register-all".

(** ** JavaScript values and string primitives *)

Module JS.

(** [String.prototype.startsWith(p)] at position 0. *)
Definition startsWith (s p : string) : bool := String.prefix p s.

(** [String.prototype.endsWith(p)]: the last [length p] characters of [s]
    are [p]. *)
Definition endsWith (s p : string) : bool :=
  (String.length p <=? String.length s)%nat &&
  String.eqb (substring (String.length s - String.length p)
                        (String.length p) s) p.

(** [String.prototype.includes(p)]: [p] occurs at some position of [s]. *)
Fixpoint includes (s p : string) : bool :=
  String.prefix p s ||
  match s with
  | EmptyString => false
  | String _ s' => includes s' p
  end.

(** [Array.prototype.join(sep)] on an array of strings. *)
Fixpoint join (sep : string) (xs : list string) : string :=
  match xs with
  | [] => ""
  | [x] => x
  | x :: rest => x ++ sep ++ join sep rest
  end.

(** [Array.prototype.includes] and [filter(t => t !== x)] on strings. *)
Definition arr_includes (xs : list string) (x : string) : bool :=
  existsb (String.eqb x) xs.

Definition arr_remove (xs : list string) (x : string) : list string :=
  filter (fun t => negb (String.eqb t x)) xs.

(** What [JSON.parse] can return.  A number is held as the text ToString
    gives for it (["42"], ["1.5"], ["1e+21"]; both zeros are ["0"]), which
    is all the code observes of a number: its string form and whether it
    is zero.  An object is the list of its own properties in insertion
    order (keys distinct). *)
Inductive json : Type :=
| JNull
| JBool (b : bool)
| JNum (text : string)
| JStr (s : string)
| JArr (items : list json)
| JObj (props : list (string * json)).

(** The result of reading a property: [undefined] or a value. *)
Inductive jsval : Type :=
| Undefined
| Val (j : json).

(** Evaluation that may throw: [Throw] carries the error message. *)
Inductive completion (A : Type) : Type :=
| Ok (a : A)
| Throw (err : string).
Arguments Ok {A} a.
Arguments Throw {A} err.

Definition bind {A B} (c : completion A) (k : A -> completion B)
  : completion B :=
  match c with
  | Ok a => k a
  | Throw e => Throw e
  end.

Fixpoint lookup (k : string) (props : list (string * json)) : option json :=
  match props with
  | [] => None
  | (k', v) :: rest => if String.eqb k' k then Some v else lookup k rest
  end.

(** [j.k] for a property name [k] that no primitive wrapper or array
    defines (the code reads only [job_id] and [status]): reading from
    [null] throws, an object yields its own property, anything else
    [undefined]. *)
Definition prop (j : json) (k : string) : completion jsval :=
  match j with
  | JNull => Throw "TypeError: Cannot read properties of null"
  | JObj props =>
      match lookup k props with
      | Some v => Ok (Val v)
      | None => Ok Undefined
      end
  | _ => Ok Undefined
  end.

(** ToBoolean. *)
Definition truthy (v : jsval) : bool :=
  match v with
  | Undefined => false
  | Val JNull => false
  | Val (JBool b) => b
  | Val (JNum text) => negb (String.eqb text "0")
  | Val (JStr s) => negb (String.eqb s "")
  | Val (JArr _) => true
  | Val (JObj _) => true
  end.

(** [v !== "processing"] and the like: strict inequality with a string
    literal. *)
Definition strict_neq_str (v : jsval) (lit : string) : bool :=
  match v with
  | Val (JStr s) => negb (String.eqb s lit)
  | _ => true
  end.

(** ToString, as a template literal applies it.  An object goes through
    its [toString] and [valueOf]: a parsed object that has a key
    [toString] of its own hides the inherited method behind a value that
    cannot be called, and the conversion throws; any other parsed object
    gives ["[object Object]"].  An array joins the string forms of its
    elements with commas, [null] counting as empty. *)
Fixpoint to_string (j : json) : completion string :=
  match j with
  | JNull => Ok "null"
  | JBool true => Ok "true"
  | JBool false => Ok "false"
  | JNum text => Ok text
  | JStr s => Ok s
  | JArr items =>
      bind ((fix elements (l : list json) : completion (list string) :=
               match l with
               | [] => Ok []
               | x :: rest =>
                   bind (match x with
                         | JNull => Ok ""
                         | _ => to_string x
                         end)
                        (fun first =>
                           bind (elements rest)
                                (fun others => Ok (first :: others)))
               end) items)
           (fun parts => Ok (join "," parts))
  | JObj props =>
      match lookup "toString" props with
      | Some _ => Throw "TypeError: Cannot convert object to primitive value"
      | None => Ok "[object Object]"
      end
  end.

Definition val_to_string (v : jsval) : completion string :=
  match v with
  | Undefined => Ok "undefined"
  | Val j => to_string j
  end.

End JS.

Notation "x <- c ;; k" := (JS.bind c (fun x => k))
(at level 61, c at next level, right associativity).

(** ** Form.jsx: the submission form *)

Module Form.
Import JS.

(** A browser [File]: the fields the form reads, and its bytes. *)
Record File : Type := mkFile {
  name : string;
  type : string;
  content : string
}.

(** The [formData] state object of the component. *)
Record formData : Type := mkFormData {
  projectName : string;
  category : string;
  techStack : list string;
  submissionType : string;          (* 'zip' or 'repo' *)
  repoUrl : string;
  file : option File                (* null until a file is accepted *)
}.

(** [useState({...})]: the state the form mounts with. *)
Definition initialFormData : formData :=
  {| projectName := ""; category := "default"; techStack := [];
     submissionType := "zip"; repoUrl := ""; file := None |}.

(** A multipart body: the entries of a [FormData], in append order. *)
Inductive part : Type :=
| Text (s : string)
| Blob (f : File).

Definition FormData : Type := list (string * part).

Definition append (data : FormData) (key : string) (v : part) : FormData :=
  (data ++ [(key, v)])%list.

(** [FormData.prototype.has] and [get]. *)
Definition has (data : FormData) (key : string) : bool :=
  existsb (fun e => String.eqb (fst e) key) data.

Fixpoint get (data : FormData) (key : string) : option part :=
  match data with
  | [] => None
  | (k, v) :: rest => if String.eqb k key then Some v else get rest key
  end.

(** The argument of [fetch]. *)
Record request : Type := mkRequest {
  url : string;
  method : string;
  body : FormData
}.

(** A [Response], as far as the form looks at it: what [res.json()]
    settles to. *)
Record response : Type := mkResponse {
  json_body : completion json
}.

(** The network as the form sees it: [fetch] rejects or resolves. *)
Definition network : Type := request -> completion response.

(** What a handler does to the world around the component. *)
Inductive effect : Type :=
| Alert (msg : string)
| ConsoleError (err : string)
| Fetch (req : request)
| Navigate (href : string).       (* window.location.href = href *)

(** A handler maps the current [formData] to the next one and a trace. *)
Definition handler : Type := formData -> formData * list effect.

(** Lines 51-57.  [setFormData(prev => ({ ...prev, file }))] on the
    accepting branch, an alert and nothing else on the other. *)
Definition isZip (f : File) : bool :=
  endsWith (name f) ".zip" || includes (type f) "zip"
  || includes (type f) "compressed".

Definition validateFile (f : File) : handler := fun prev =>
  if isZip f then
    ({| projectName := projectName prev; category := category prev;
        techStack := techStack prev; submissionType := submissionType prev;
        repoUrl := repoUrl prev; file := Some f |}, [])
  else
    (prev, [Alert "Please upload a .zip file"]).

(** Lines 44-49 and the file input's [onChange]: the first offered file, if
    any, goes through [validateFile].  ([isDragging] is display state kept
    outside [formData].) *)
Definition handleDrop (files : list File) : handler := fun prev =>
  match files with
  | f :: _ => validateFile f prev
  | [] => (prev, [])
  end.

(** Lines 59-69. *)
Definition toggleTech (tech : string) : handler := fun prev =>
  let exists_ := arr_includes (techStack prev) tech in
  ({| projectName := projectName prev; category := category prev;
      techStack := if exists_ then arr_remove (techStack prev) tech
                   else (techStack prev ++ [tech])%list;
      submissionType := submissionType prev;
      repoUrl := repoUrl prev; file := file prev |}, []).

(** Lines 75-88: the message of the first check that fails, if any. *)
Definition validate (fd : formData) : option string :=
  if String.eqb (category fd) "default" then
    Some "Please select a project type."
  else if (List.length (techStack fd) =? 0)%nat then
    Some "Please select at least one technology."
  else if String.eqb (submissionType fd) "zip" then
    match file fd with
    | None => Some "Please upload a zip file."
    | Some _ => None
    end
  else
    if String.eqb (repoUrl fd) "" || negb (startsWith (repoUrl fd) "http")
    then Some "Please enter a valid Git repository URL."
    else None.

(** Lines 90-101.  [append] of a [File] attaches it; of [null] it would
    attach the text "null". *)
Definition description (fd : formData) : string :=
  projectName fd ++ " | Tech: " ++ join ", " (techStack fd).

Definition buildFormData (fd : formData) : FormData :=
  let data := [] in
  let data := append data "project_type" (Text (category fd)) in
  let data := append data "description" (Text (description fd)) in
  if String.eqb (submissionType fd) "zip" then
    append data "single_zip"
           match file fd with
           | Some f => Blob f
           | None => Text "null"
           end
  else
    append data "git_url" (Text (repoUrl fd)).

Definition submitRequest (fd : formData) : request :=
  {| url := "http://localhost:8000/submit"; method := "POST";
     body := buildFormData fd |}.

(** Lines 103-112, the [try] block: the href to navigate to, or the error
    that lands in [catch]. *)
Definition trySubmit (net : network) (req : request) : completion string :=
  res <- net req ;;
  json <- json_body res ;;
  job_id <- prop json "job_id" ;;
  if negb (truthy job_id) then Throw "No job id returned"
  else
    text <- val_to_string job_id ;;
    Ok ("/verify?job_id=" ++ text).

(** Lines 72-117.  ([e.preventDefault()] only stops the browser's own form
    submission.)  [setFormData] is never called: the state is returned as
    it came. *)
Definition handleSubmit (net : network) : handler := fun fd =>
  match validate fd with
  | Some msg => (fd, [Alert msg])
  | None =>
      let req := submitRequest fd in
      match trySubmit net req with
      | Ok href => (fd, [Fetch req; Navigate href])
      | Throw err => (fd, [Fetch req; ConsoleError err;
                            Alert "Submission failed."])
      end
  end.

(** Reading a trace. *)
Definition alerts (tr : list effect) : list string :=
  flat_map (fun e => match e with Alert m => [m] | _ => [] end) tr.

Definition fetches (tr : list effect) : list request :=
  flat_map (fun e => match e with Fetch r => [r] | _ => [] end) tr.

Definition navigations (tr : list effect) : list string :=
  flat_map (fun e => match e with Navigate h => [h] | _ => [] end) tr.

End Form.

(** ** Verify.jsx: the result poller *)

Module Verify.
Import JS.
Local Open Scope N_scope.

(** How one status request ends: the two awaits of the callback,
    [fetch] and [res.json()], taken as one outcome. *)
Inductive outcome : Type :=
| Rejected                 (* [fetch] rejects: transport failure *)
| Unparsable               (* [res.json()] rejects: body is not JSON *)
| Body (j : json).         (* [res.json()] resolves to [j] *)

(** Everything outside the component.  Requests and timer firings are
    numbered from 0 in the order they happen; times are milliseconds. *)
Record world : Type := mkWorld {
  jitter : nat -> N;       (* how late the k-th timer firing runs *)
  latency : nat -> N;      (* time until the k-th request's outcome is known *)
  reply : nat -> outcome;  (* outcome of the k-th request *)
  timers_first : bool      (* which task runs first when a firing and an
                              outcome fall on the same millisecond *)
}.

(** The component with its pending work. *)
Record state : Type := mkState {
  now : N;
  timer : option N;               (* next firing of the interval timer;
                                     [None] once [clearInterval] ran *)
  issued : list (N * string);     (* start time and URL of every request *)
  inflight : list (nat * N);      (* requests awaiting their outcome, with
                                     the time it arrives *)
  result : option json            (* the [result] state; [None] is null *)
}.

Definition interval : N := 3000.

(** [`http://localhost:8000/result/${jobId}`]; [query.get] gives null when
    the parameter is absent. *)
Definition resultUrl (jobId : option string) : string :=
  ("http://localhost:8000/result/" ++
   match jobId with Some id => id | None => "null" end)%string.

(** [useEffect(..., [])]: mounting starts the interval timer and sends
    nothing yet. *)
Definition mount (w : world) : state :=
  {| now := 0; timer := Some (interval + jitter w 0);
     issued := []; inflight := []; result := None |}.

(** The timer fires at [t]: the callback runs up to its first [await],
    issuing a request; the timer is armed again. *)
Definition fire (w : world) (jobId : option string) (t : N) (s : state)
  : state :=
  let k := List.length (issued s) in
  {| now := t;
     timer := Some (t + interval + jitter w (S k));
     issued := (issued s ++ [(t, resultUrl jobId)])%list;
     inflight := (inflight s ++ [(k, t + latency w k)])%list;
     result := result s |}.

(** The rest of the callback, once the outcome [o] is known.  A rejected
    [await] or a property read on null ends the callback there. *)
Definition settle (o : outcome) (s : state) : state :=
  match o with
  | Body json =>
      match prop json "status" with
      | Ok status =>
          if strict_neq_str status "processing" then
            {| now := now s; timer := None;           (* clearInterval *)
               issued := issued s; inflight := inflight s;
               result := Some json |}                 (* setResult *)
          else s
      | Throw _ => s
      end
  | Rejected | Unparsable => s
  end.

(** The event loop: of the timer and the pending outcomes, whatever is due
    first runs next. *)
Inductive event : Type :=
| Tick (t : N)
| Settle (k : nat) (t : N).

Fixpoint earliest (l : list (nat * N)) : option (nat * N) :=
  match l with
  | [] => None
  | x :: rest =>
      match earliest rest with
      | Some y => if snd y <? snd x then Some y else Some x
      | None => Some x
      end
  end.

Definition next (w : world) (s : state) : option event :=
  match timer s, earliest (inflight s) with
  | None, None => None
  | Some t, None => Some (Tick t)
  | None, Some (k, d) => Some (Settle k d)
  | Some t, Some (k, d) =>
      if (t <? d) || ((t =? d) && timers_first w) then Some (Tick t)
      else Some (Settle k d)
  end.

Definition arrived (k : nat) (t : N) (s : state) : state :=
  {| now := t; timer := timer s; issued := issued s;
     inflight := filter (fun p => negb (fst p =? k)%nat) (inflight s);
     result := result s |}.

Definition step (w : world) (jobId : option string) (s : state) : state :=
  match next w s with
  | None => s
  | Some (Tick t) => fire w jobId t s
  | Some (Settle k t) => settle (reply w k) (arrived k t s)
  end.

Fixpoint run (w : world) (jobId : option string) (n : nat) (s : state)
  : state :=
  match n with
  | O => s
  | S n' => run w jobId n' (step w jobId s)
  end.

(** The render at the end of the component. *)
Inductive view : Type :=
| Processing                     (* <p>Processing...</p> *)
| Pre (j : json).                (* <pre>{JSON.stringify(result,null,2)}</pre> *)

Definition render (s : state) : view :=
  match result s with
  | None => Processing
  | Some j => if truthy (Val j) then Pre j else Processing
  end.

(** A reply that makes the callback stop the timer. *)
Definition terminal (o : outcome) : bool :=
  match o with
  | Body j =>
      match prop j "status" with
      | Ok status => strict_neq_str status "processing"
      | Throw _ => false
      end
  | _ => false
  end.

End Verify.

(** ** Sample data *)

Module Samples.
Import JS Form Verify.

Definition processing : json := JObj [("status", JStr "processing")].
Definition completed42 : json :=
  JObj [("status", JStr "completed"); ("score", JNum "42")].

Definition zipDraft : formData :=
  {| projectName := "Mercury"; category := "frontend";
     techStack := ["React"; "Vue.js"]; submissionType := "zip";
     repoUrl := ""; file := Some (mkFile "a.zip" "application/zip" "PK") |}.

Definition repoDraft : formData :=
  {| projectName := ""; category := "backend";
     techStack := ["Go"]; submissionType := "repo";
     repoUrl := "https://github.com/u/p"; file := None |}.

(** A repository draft whose URL starts with [http] but with neither
    [http://] nor [https://]. *)
Definition httpxDraft : formData :=
  {| projectName := "Legacy"; category := "backend";
     techStack := ["Go"]; submissionType := "repo";
     repoUrl := "httpx://example.org/p"; file := None |}.

(** An archive whose name ends in upper-case [.ZIP], with no media type. *)
Definition upperZip : File := mkFile "PROJECT.ZIP" "" "PK".

Definition replies (j : json) : network :=
  fun _ => Ok {| json_body := Ok j |}.

(** Every request answered in 100 ms, except that the third takes 3500 ms;
    the three answers are the sequence processing, processing, completed,
    and a fourth request, should there be one, fails in transport. *)
Definition slowThird : world :=
  {| jitter := fun _ => 0%N;
     latency := fun k => if (k =? 2)%nat then 3500%N else 100%N;
     reply := fun k =>
       match k with
       | 0 | 1 => Body processing
       | 2 => Body completed42
       | _ => Rejected
       end;
     timers_first := true |}.

(** Every request answered in 100 ms: processing twice, then completed. *)
Definition prompt : world :=
  {| jitter := fun _ => 0%N;
     latency := fun _ => 100%N;
     reply := fun k =>
       match k with
       | 0 | 1 => Body processing
       | _ => Body completed42
       end;
     timers_first := false |}.

(** The first request takes 5000 ms. *)
Definition slowFirst : world :=
  {| jitter := fun _ => 0%N;
     latency := fun k => if (k =? 0)%nat then 5000%N else 100%N;
     reply := fun _ => Body processing;
     timers_first := true |}.

(** Two overlapping requests that both end the job, the later one first. *)
Definition overtaken : world :=
  {| jitter := fun _ => 0%N;
     latency := fun k => if (k =? 0)%nat then 4000%N else 100%N;
     reply := fun k =>
       match k with
       | 0 => Body (JObj [("status", JStr "failed")])
       | _ => Body completed42
       end;
     timers_first := true |}.

End Samples.

(** ** The spec's own wording, for comparison with the code *)

Module Spec.
Import JS Form.

(** ASCII lower-casing, for the case-insensitive comparison of section 3. *)
Definition lowerChar (c : ascii) : ascii :=
  let n := nat_of_ascii c in
  if ((65 <=? n) && (n <=? 90))%nat then ascii_of_nat (n + 32) else c.

Fixpoint lower (s : string) : string :=
  match s with
  | EmptyString => EmptyString
  | String c s' => String (lowerChar c) (lower s')
  end.

(** Section 3, [archiveFile]: the name ends in [.zip] compared
    case-insensitively, or the media type indicates a zip or compressed
    archive. *)
Definition acceptsArchive (f : File) : bool :=
  endsWith (lower (name f)) ".zip" || includes (type f) "zip"
  || includes (type f) "compressed".

(** Section 3, [repositoryUrl]: non-empty and begins with [http://] or
    [https://]. *)
Definition acceptsUrl (u : string) : bool :=
  negb (String.eqb u "") &&
  (startsWith u "http://" || startsWith u "https://").

(** Section 4.1, the four validation rules, as the code decides them
    (rule 4 by the prefix [http]).  A draft is valid when it passes all of
    them and fails validation when it breaks at least one. *)
Definition validDraft (fd : formData) : Prop :=
  category fd <> "default" /\
  techStack fd <> [] /\
  (submissionType fd = "zip" -> file fd <> None) /\
  (submissionType fd <> "zip" -> startsWith (repoUrl fd) "http" = true).

Definition failsValidation (fd : formData) : Prop :=
  category fd = "default" \/
  techStack fd = [] \/
  (submissionType fd = "zip" /\ file fd = None) \/
  (submissionType fd <> "zip" /\ startsWith (repoUrl fd) "http" = false).

(** Section 4.1, submission behaviour: the three ways a submit call fails.
    The transport fails, the body is not JSON, or the JSON carries no
    [job_id]. *)
Definition submitFails (net : network) (req : request) : Prop :=
  (exists err, net req = Throw err) \/
  (exists res err, net req = Ok res /\ json_body res = Throw err) \/
  (exists res j, net req = Ok res /\ json_body res = Ok j /\
                 forall v, prop j "job_id" <> Ok (Val v)).

(** How many entries of a multipart body carry the key [key]. *)
Definition countKey (data : FormData) (key : string) : nat :=
  List.length (filter (fun e => String.eqb (fst e) key) data).

(** Selecting technologies one after the other. *)
Definition selectAll (techs : list string) (fd : formData) : formData :=
  fold_left (fun st t => fst (toggleTech t st)) techs fd.

(** Section 5: the number of status requests whose outcome is not yet
    known. *)
Definition inFlight (s : Verify.state) : nat := List.length (Verify.inflight s).

End Spec.

(** ** Form.jsx: the rest of the component *)

Module FormUI.
Import JS Form.

(** Lines 12-17. *)
Definition TECH_OPTIONS : list string :=
  ["React"; "Vue.js"; "Angular"; "Next.js"; "TypeScript";
   "Node.js"; "Express"; "Python"; "Django"; "Flask";
   "FastAPI"; "Java"; "Spring Boot"; "Go"; "Rust";
   "Docker"; "Kubernetes"; "AWS"; "Firebase"; "PostgreSQL"].

(** Lines 19-24: value and label of each project type. *)
Definition PROJECT_TYPES : list (string * string) :=
  [("frontend", "Frontend Application");
   ("backend", "Backend Service");
   ("fullstack", "Full Stack Project");
   ("python", "Python Automation / Script")].

(** Lines 151, 163 and 289: the [onChange] handlers of the three inputs,
    [setFormData({...formData, field: e.target.value})]. *)
Definition setProjectName (v : string) : handler := fun fd =>
  ({| projectName := v; category := category fd;
      techStack := techStack fd; submissionType := submissionType fd;
      repoUrl := repoUrl fd; file := file fd |}, []).

Definition setCategory (v : string) : handler := fun fd =>
  ({| projectName := projectName fd; category := v;
      techStack := techStack fd; submissionType := submissionType fd;
      repoUrl := repoUrl fd; file := file fd |}, []).

Definition setRepoUrl (v : string) : handler := fun fd =>
  ({| projectName := projectName fd; category := category fd;
      techStack := techStack fd; submissionType := submissionType fd;
      repoUrl := v; file := file fd |}, []).

(** Lines 209 and 221: the two buttons of the submission-method toggle. *)
Definition setSubmissionType (v : string) : handler := fun prev =>
  ({| projectName := projectName prev; category := category prev;
      techStack := techStack prev; submissionType := v;
      repoUrl := repoUrl prev; file := file prev |}, []).

(** Line 303: the [disabled] attribute of the submit button. *)
Definition submitDisabled (fd : formData) : bool :=
  if String.eqb (submissionType fd) "zip" then
    match file fd with None => true | Some _ => false end
  else String.eqb (repoUrl fd) "".

(** The component's state: [formData] and [isDragging]. *)
Record ui : Type := mkUi {
  data : formData;
  isDragging : bool
}.

Definition initialUi : ui :=
  {| data := initialFormData; isDragging := false |}.

Definition onData (h : handler) (u : ui) : ui * list effect :=
  let (fd, tr) := h (data u) in
  ({| data := fd; isDragging := isDragging u |}, tr).

(** Lines 39-42. *)
Definition handleDrag (status : bool) (u : ui) : ui * list effect :=
  ({| data := data u; isDragging := status |}, []).

(** Lines 44-49, with the [setIsDragging(false)] that precedes the file
    check. *)
Definition handleDropUi (files : list File) (u : ui) : ui * list effect :=
  onData (handleDrop files) {| data := data u; isDragging := false |}.

(** What the user can do on the rendered page. *)
Inductive action : Type :=
| TypeName (v : string)            (* project name input *)
| ChooseCategory (v : string)      (* category select *)
| ClickTech (tech : string)        (* one of the technology buttons *)
| ClickMode (v : string)           (* submission-method toggle *)
| TypeUrl (v : string)             (* repository URL input *)
| PickFiles (files : list File)    (* hidden file input *)
| Drag (status : bool)             (* dragover / dragleave on the zone *)
| Drop (files : list File)
| Submit (net : network).          (* submit, with what the network does *)

(** Whether the page as rendered offers the action: the select lists the
    values of [PROJECT_TYPES] (its [default] option is disabled), there is
    one button per entry of [TECH_OPTIONS] and one per mode, the drop zone
    with its file input is rendered in zip mode only and the URL input in
    the other, and the submit button obeys [disabled]. *)
Definition offered (a : action) (u : ui) : bool :=
  match a with
  | TypeName _ => true
  | ChooseCategory v => arr_includes (map fst PROJECT_TYPES) v
  | ClickTech tech => arr_includes TECH_OPTIONS tech
  | ClickMode v => String.eqb v "zip" || String.eqb v "repo"
  | TypeUrl _ => negb (String.eqb (submissionType (data u)) "zip")
  | PickFiles _ | Drag _ | Drop _ =>
      String.eqb (submissionType (data u)) "zip"
  | Submit _ => negb (submitDisabled (data u))
  end.

Definition dispatch (a : action) (u : ui) : ui * list effect :=
  match a with
  | TypeName v => onData (setProjectName v) u
  | ChooseCategory v => onData (setCategory v) u
  | ClickTech tech => onData (toggleTech tech) u
  | ClickMode v => onData (setSubmissionType v) u
  | TypeUrl v => onData (setRepoUrl v) u
  | PickFiles files => onData (handleDrop files) u
  | Drag status => handleDrag status u
  | Drop files => handleDropUi files u
  | Submit net => onData (handleSubmit net) u
  end.

(** A session: the actions the page offers are handled one after the
    other; an action it does not offer does nothing; a navigation leaves
    the page, so nothing after it is handled. *)
Fixpoint session (acts : list action) (u : ui) : ui * list effect :=
  match acts with
  | [] => (u, [])
  | a :: rest =>
      if offered a u then
        let (u', tr) := dispatch a u in
        match navigations tr with
        | [] => let (u'', tr') := session rest u' in (u'', (tr ++ tr')%list)
        | _ :: _ => (u', tr)
        end
      else session rest u
  end.

(** Offering files one after the other. *)
Definition offerAll (files : list File) (fd : formData)
  : formData * list effect :=
  fold_left (fun acc f => let (fd', tr) := validateFile f (fst acc) in
                          (fd', (snd acc ++ tr)%list))
            files (fd, []).

(** The shape every draft of a session has. *)
Definition wellFormed (fd : formData) : Prop :=
  (submissionType fd = "zip" \/ submissionType fd = "repo") /\
  (category fd = "default" \/ In (category fd) (map fst PROJECT_TYPES)) /\
  NoDup (techStack fd) /\
  incl (techStack fd) TECH_OPTIONS /\
  (forall f, file fd = Some f -> isZip f = true).

End FormUI.

(** ** Verify.jsx: reading a run *)

Module Cadence.
Import Verify.
Local Open Scope N_scope.

(** Start times that begin at least one interval after [from] and keep at
    least one interval between neighbours. *)
Fixpoint spaced (from : N) (times : list N) : Prop :=
  match times with
  | [] => True
  | t :: rest => from + interval <= t /\ spaced t rest
  end.

(** The start of the latest request, 0 (the mount) before the first. *)
Definition lastStart (s : state) : N := last (map fst (issued s)) 0.

(** What holds of every state of a run: the requests in flight are
    distinct requests that were issued; every request went to the result
    address; the starts are spaced; the timer is due at least an interval
    after the latest start; and the result is unset exactly while the
    timer is armed, a set result being a non-processing reply to one of
    the requests. *)
Definition sound (w : world) (jobId : option string) (s : state) : Prop :=
  NoDup (map fst (inflight s)) /\
  (forall k d, In (k, d) (inflight s) -> (k < List.length (issued s))%nat) /\
  Forall (fun p => snd p = resultUrl jobId) (issued s) /\
  spaced 0 (map fst (issued s)) /\
  (forall t, timer s = Some t -> lastStart s + interval <= t) /\
  match result s with
  | Some j =>
      timer s = None /\
      exists k, (k < List.length (issued s))%nat /\
                reply w k = Body j /\ terminal (Body j) = true
  | None => timer s <> None
  end.

(** Time bookkeeping of a run: the clock is not before the latest start,
    and a request in flight is due no earlier than the clock, at its own
    start plus its latency. *)
Definition tracked (w : world) (s : state) : Prop :=
  lastStart s <= now s /\
  forall k d, In (k, d) (inflight s) ->
    now s <= d /\
    exists t, nth_error (map fst (issued s)) k = Some t /\
              d = t + latency w k.

(** The outcome of request [k] is handled before the timer fires next:
    it is due before that firing, or in the same millisecond with
    outcomes running first. *)
Definition beats (w : world) (k : nat) : Prop :=
  latency w k < interval + jitter w (S k) \/
  (latency w k = interval + jitter w (S k) /\ timers_first w = false).

(** When the firing number [k] of the timer is due, while it is armed. *)
Fixpoint tickTime (w : world) (k : nat) : N :=
  match k with
  | O => interval + jitter w 0
  | S k' => tickTime w k' + interval + jitter w k
  end.

(** The requests issued are the firings so far, each at its due time, and
    an armed timer is due at the next one. *)
Definition onSchedule (w : world) (jobId : option string) (s : state)
  : Prop :=
  issued s = map (fun k => (tickTime w k, resultUrl jobId))
                 (seq 0 (List.length (issued s))) /\
  forall T, timer s = Some T -> T = tickTime w (List.length (issued s)).

(** The first two replies take 5000 and 2500 ms, the third 100 ms; the
    replies are processing, processing, completed. *)
Definition slowFirstTwo : world :=
  {| jitter := fun _ => 0;
     latency := fun k => match k with
                         | O => 5000
                         | S O => 2500
                         | _ => 100
                         end;
     reply := fun k => match k with
                       | O | S O => Body Samples.processing
                       | _ => Body Samples.completed42
                       end;
     timers_first := true |}.

(** A service that is down: every request fails in transport after
    200 ms. *)
Definition down : world :=
  {| jitter := fun _ => 0; latency := fun _ => 200;
     reply := fun _ => Rejected; timers_first := false |}.

(** A service that answers the bare number 0 after 100 ms. *)
Definition zeroReply : world :=
  {| jitter := fun _ => 0; latency := fun _ => 100;
     reply := fun _ => Body (JS.JNum "0"); timers_first := false |}.

End Cadence.

(** ** From the form to the verify page: the browser's URL handling

    [window.location.href = href] runs the URL Standard's parser on
    [href], and [Verify.jsx] reads [job_id] back through
    [new URLSearchParams(useLocation().search)].  A string stands for the
    UTF-8 bytes of the JavaScript string, which is how the parser and the
    query decoder see it. *)

Module Browser.

Definition code (c : ascii) : nat := nat_of_ascii c.

(** C0 control or space; ASCII tab or newline. *)
Definition isC0OrSpace (c : ascii) : bool := (code c <=? 32)%nat.

Definition isTabOrNewline (c : ascii) : bool :=
  (code c =? 9)%nat || (code c =? 10)%nat || (code c =? 13)%nat.

(** The parser first removes leading and trailing C0 controls and spaces,
    then every tab and newline. *)
Fixpoint dropLeading (s : string) : string :=
  match s with
  | EmptyString => EmptyString
  | String c s' => if isC0OrSpace c then dropLeading s' else s
  end.

Fixpoint dropTrailing (s : string) : string :=
  match s with
  | EmptyString => EmptyString
  | String c s' =>
      match dropTrailing s' with
      | EmptyString => if isC0OrSpace c then EmptyString
                       else String c EmptyString
      | rest => String c rest
      end
  end.

Fixpoint removeTabNewline (s : string) : string :=
  match s with
  | EmptyString => EmptyString
  | String c s' =>
      if isTabOrNewline c then removeTabNewline s'
      else String c (removeTabNewline s')
  end.

(** The text before the first [stop], and the text after it if there is
    one. *)
Fixpoint before (stop : ascii) (s : string) : string :=
  match s with
  | EmptyString => EmptyString
  | String c s' =>
      if Ascii.eqb c stop then EmptyString else String c (before stop s')
  end.

Fixpoint after (stop : ascii) (s : string) : option string :=
  match s with
  | EmptyString => None
  | String c s' => if Ascii.eqb c stop then Some s' else after stop s'
  end.

(** Percent-encoding with the query set of a special scheme: C0 controls,
    space, the quotes, [#], [<], [>] and everything above [~]. *)
Definition hexDigit (n : nat) : ascii :=
  if (n <? 10)%nat then ascii_of_nat (48 + n) else ascii_of_nat (55 + n).

Definition percentEncode (c : ascii) : string :=
  String "%" (String (hexDigit (code c / 16))
                     (String (hexDigit (code c mod 16)) EmptyString)).

Definition inQuerySet (c : ascii) : bool :=
  (code c <=? 32)%nat || (126 <? code c)%nat ||
  (code c =? 34)%nat || (code c =? 35)%nat || (code c =? 39)%nat ||
  (code c =? 60)%nat || (code c =? 62)%nat.

Fixpoint queryEncode (s : string) : string :=
  match s with
  | EmptyString => EmptyString
  | String c s' =>
      if inQuerySet c then percentEncode c ++ queryEncode s'
      else String c (queryEncode s')
  end.

(** The two parts of [location] the application reads. *)
Record location : Type := mkLocation {
  pathname : string;
  search : string
}.

(** Assigning [href], a path-absolute reference whose path needs no
    normalising (as [/verify] needs none): the fragment starts at the
    first [#], the query at the first [?] before it; [search] is empty
    for a missing or empty query and else [?] with the encoded query. *)
Definition navigate (href : string) : location :=
  let input := removeTabNewline (dropTrailing (dropLeading href)) in
  let withoutFragment := before "#" input in
  {| pathname := before "?" withoutFragment;
     search := match after "?" withoutFragment with
               | None | Some EmptyString => EmptyString
               | Some query => String "?" (queryEncode query)
               end |}.

End Browser.

Module URLSearchParams.
Import Browser.

Definition isHex (c : ascii) : bool :=
  ((48 <=? code c) && (code c <=? 57))%nat ||
  ((65 <=? code c) && (code c <=? 70))%nat ||
  ((97 <=? code c) && (code c <=? 102))%nat.

Definition hexValue (c : ascii) : nat :=
  if (code c <=? 57)%nat then code c - 48
  else if (code c <=? 70)%nat then code c - 55
  else code c - 87.

Fixpoint plusToSpace (s : string) : string :=
  match s with
  | EmptyString => EmptyString
  | String c s' =>
      String (if Ascii.eqb c "+" then " "%char else c) (plusToSpace s')
  end.

(** Percent-decoding: [%] followed by two hex digits gives one byte,
    anything else stands for itself.  (The decoder then reads the bytes
    as UTF-8; an ill-formed sequence, which only an escape can bring in,
    would become U+FFFD and is left as it is here.) *)
Fixpoint percentDecode (s : string) : string :=
  match s with
  | EmptyString => EmptyString
  | String c s1 =>
      if Ascii.eqb c "%" then
        match s1 with
        | String a (String b rest) =>
            if isHex a && isHex b then
              String (ascii_of_nat (16 * hexValue a + hexValue b))
                     (percentDecode rest)
            else String c (percentDecode s1)
        | _ => String c (percentDecode s1)
        end
      else String c (percentDecode s1)
  end.

Fixpoint splitOn (sep : ascii) (s : string) : list string :=
  match s with
  | EmptyString => [EmptyString]
  | String c s' =>
      if Ascii.eqb c sep then EmptyString :: splitOn sep s'
      else match splitOn sep s' with
           | first :: others => String c first :: others
           | [] => [String c EmptyString]
           end
  end.

(** One [name=value] sequence: split at the first [=], then [+] to space
    and percent-decoding on both sides. *)
Definition parsePair (p : string) : string * string :=
  (percentDecode (plusToSpace (before "=" p)),
   percentDecode (plusToSpace match after "=" p with
                              | Some v => v
                              | None => EmptyString
                              end)).

(** [new URLSearchParams(init)] for a string: a leading [?] is dropped,
    the rest is split on [&], empty sequences are skipped. *)
Definition parse (init : string) : list (string * string) :=
  let body := match init with
              | String c rest => if Ascii.eqb c "?" then rest else init
              | EmptyString => init
              end in
  map parsePair
      (filter (fun p => negb (String.eqb p EmptyString)) (splitOn "&" body)).

(** [get(name)]: the value of the first pair of that name, or null. *)
Fixpoint get (params : list (string * string)) (name : string)
  : option string :=
  match params with
  | [] => None
  | (n, v) :: rest => if String.eqb n name then Some v else get rest name
  end.

End URLSearchParams.

Module Router.

(** router.jsx: the five routes, by their paths as written there.  (React
    Router also accepts other spellings of a path, such as a trailing
    slash; the form only ever produces [/verify].) *)
Inductive page : Type :=
| LandingPage
| EvaluatePage
| VerifyPage
| NoPage.

Definition route (path : string) : page :=
  if String.eqb path "/" then LandingPage
  else if String.eqb path "/features" then LandingPage
  else if String.eqb path "/evaluate" then EvaluatePage
  else if String.eqb path "/verify" then VerifyPage
  else if String.eqb path "/contact" then LandingPage
  else NoPage.

End Router.

Module Handoff.
Import Browser URLSearchParams Router.

(** Whether a trace of the form opens the verify page, the only place a
    status request is issued from. *)
Definition opensVerify (tr : list Form.effect) : bool :=
  existsb (fun href => match route (pathname (navigate href)) with
                       | VerifyPage => true
                       | _ => false
                       end)
          (Form.navigations tr).

(** Verify.jsx, lines 256-257: [query.get("job_id")] on the current
    location's [search]. *)
Definition jobIdOf (loc : location) : option string :=
  get (parse (search loc)) "job_id".

(** Where navigating to [href] leads: the job id the verify page starts
    with (null when the parameter is absent), if it is the verify page
    that opens. *)
Definition verifyContext (href : string) : option (option string) :=
  match route (pathname (navigate href)) with
  | VerifyPage => Some (jobIdOf (navigate href))
  | _ => None
  end.

(** Identifiers that pass through a query string unchanged: no [&], [#],
    [+], tab or newline; no [%] followed by two hex digits; not ending in
    a space or control character. *)
Fixpoint allChars (ok : ascii -> bool) (s : string) : bool :=
  match s with
  | EmptyString => true
  | String c s' => ok c && allChars ok s'
  end.

Definition hexPairAhead (s : string) : bool :=
  match s with
  | String a (String b _) => isHex a && isHex b
  | _ => false
  end.

Fixpoint noEscape (s : string) : bool :=
  match s with
  | EmptyString => true
  | String c s' =>
      negb (Ascii.eqb c "%" && hexPairAhead s') && noEscape s'
  end.

Fixpoint endsClean (s : string) : bool :=
  match s with
  | EmptyString => true
  | String c s' =>
      match s' with
      | EmptyString => negb (isC0OrSpace c)
      | String _ _ => endsClean s'
      end
  end.

(** What the query decoder gives back for a value the URL parser has
    encoded. *)
Definition readBack (z : string) : string :=
  percentDecode (plusToSpace (queryEncode z)).

Definition urlSafe (id : string) : bool :=
  allChars (fun c => negb (Ascii.eqb c "&")) id &&
  allChars (fun c => negb (Ascii.eqb c "#")) id &&
  allChars (fun c => negb (Ascii.eqb c "+")) id &&
  allChars (fun c => negb (isTabOrNewline c)) id &&
  noEscape id && endsClean id.

End Handoff.

Import JS Form Verify Samples Spec.

(** * Properties *)

(** ** String primitives *)

Section Strings.

Lemma startsWith_iff (s p : string) :
  startsWith s p = true <-> exists r, s = p ++ r.
Proof.
  unfold startsWith. revert s.
  induction p as [|c p IH]; intros s; simpl.
  - split; [intros _; now exists s | intros _; now destruct s].
  - destruct s as [|d s]; simpl.
    + split; [discriminate | intros [r Hr]; discriminate].
    + destruct (Ascii.ascii_dec c d) as [->|Hcd].
      * rewrite IH. split; intros [r Hr]; exists r; congruence.
      * split; [discriminate | intros [r Hr]; congruence].
Qed.

Lemma length_app (a b : string) :
  String.length (a ++ b) = String.length a + String.length b.
Proof. induction a; simpl; congruence. Qed.

Lemma substring_all (p : string) : substring 0 (String.length p) p = p.
Proof. induction p; simpl; congruence. Qed.

Lemma substring_skip (q p : string) (n : nat) :
  substring (String.length q) n (q ++ p) = substring 0 n p.
Proof. induction q; simpl; auto. Qed.

Lemma substring_split (s : string) (n : nat) :
  n <= String.length s ->
  s = substring 0 n s ++ substring n (String.length s - n) s.
Proof.
  revert n. induction s as [|c s IH]; intros n Hn; simpl in *.
  - destruct n; reflexivity.
  - destruct n as [|n]; simpl.
    + now rewrite substring_all.
    + f_equal. apply IH. lia.
Qed.

Lemma endsWith_iff (s p : string) :
  endsWith s p = true <-> exists q, s = q ++ p.
Proof.
  unfold endsWith. rewrite andb_true_iff, Nat.leb_le, String.eqb_eq. split.
  - intros [Hle Hsub].
    exists (substring 0 (String.length s - String.length p) s).
    rewrite (substring_split s (String.length s - String.length p)) at 1
      by lia.
    replace (String.length s - (String.length s - String.length p))
      with (String.length p) by lia.
    now rewrite Hsub.
  - intros [q ->]. rewrite length_app. split; [lia|].
    replace (String.length q + String.length p - String.length p)
      with (String.length q) by lia.
    now rewrite substring_skip, substring_all.
Qed.

Lemma includes_iff (s p : string) :
  includes s p = true <-> exists a b, s = a ++ p ++ b.
Proof.
  induction s as [|c s IH]; simpl; rewrite orb_true_iff.
  - split.
    + intros [H|H]; [|discriminate].
      apply (startsWith_iff "" p) in H. destruct H as [r Hr].
      exists "", r. exact Hr.
    + intros [a [b H]]. left. apply (startsWith_iff "" p).
      destruct a; [now exists b | discriminate].
  - split.
    + intros [H|H].
      * apply (startsWith_iff (String c s) p) in H. destruct H as [r Hr].
        exists "", r. exact Hr.
      * apply IH in H. destruct H as [a [b ->]].
        now exists (String c a), b.
    + intros [a [b H]]. destruct a as [|d a]; simpl in H.
      * left. apply (startsWith_iff (String c s) p). now exists b.
      * right. apply IH. exists a, b. congruence.
Qed.

Lemma join_concat (sep : string) (xs : list string) :
  join sep xs = String.concat sep xs.
Proof.
  induction xs as [|x [|y rest] IH]; simpl in *; congruence.
Qed.

End Strings.

(** ** Submission form *)

Section Submission.

Variable net : network.

Lemma startsWith_http_nonempty (u : string) :
  startsWith u "http" = true -> u <> "".
Proof. intros H ->. discriminate H. Qed.

Lemma url_check (u : string) :
  String.eqb u "" || negb (startsWith u "http")
  = negb (startsWith u "http").
Proof.
  destruct (String.eqb_spec u "") as [->|_]; reflexivity.
Qed.

Lemma length_zero_nil {A} (l : list A) :
  (List.length l =? 0)%nat = true <-> l = [].
Proof. destruct l; simpl; split; congruence. Qed.

Lemma validate_None_iff (fd : formData) :
  validate fd = None <-> validDraft fd.
Proof.
  unfold validate, validDraft. rewrite url_check.
  destruct (String.eqb_spec (category fd) "default") as [Hc|Hc].
  { split; [discriminate | intros [H _]; contradiction]. }
  destruct (List.length (techStack fd) =? 0)%nat eqn:Ht.
  { apply length_zero_nil in Ht.
    split; [discriminate | intros [_ [H _]]; contradiction]. }
  assert (Ht' : techStack fd <> []).
  { intros E. apply length_zero_nil in E. congruence. }
  destruct (String.eqb_spec (submissionType fd) "zip") as [Hz|Hz].
  - destruct (file fd) as [f|] eqn:Hf.
    + split; [|reflexivity]. intros _. repeat split; auto; congruence.
    + split; [discriminate|]. intros [_ [_ [H _]]]. now elim (H Hz).
  - destruct (startsWith (repoUrl fd) "http") eqn:Hu; simpl.
    + split; [|reflexivity]. intros _. repeat split; auto; contradiction.
    + split; [discriminate|]. intros [_ [_ [_ H]]].
      specialize (H Hz). discriminate.
Qed.

Lemma validate_fails_iff (fd : formData) :
  (exists msg, validate fd = Some msg) <-> failsValidation fd.
Proof.
  unfold validate, failsValidation. rewrite url_check.
  destruct (String.eqb_spec (category fd) "default") as [Hc|Hc].
  { split; [now left | now eexists]. }
  destruct (List.length (techStack fd) =? 0)%nat eqn:Ht.
  { apply length_zero_nil in Ht. split; [now right; left | now eexists]. }
  assert (Ht' : techStack fd <> []).
  { intros E. apply length_zero_nil in E. congruence. }
  destruct (String.eqb_spec (submissionType fd) "zip") as [Hz|Hz].
  - destruct (file fd) as [f|] eqn:Hf.
    + split; [intros [m Hm]; discriminate|].
      intros [H|[H|[[_ H]|[H _]]]]; congruence.
    + split; [now right; right; left | now eexists].
  - destruct (startsWith (repoUrl fd) "http") eqn:Hu; simpl.
    + split; [intros [m Hm]; discriminate|].
      intros [H|[H|[[H _]|[_ H]]]]; congruence.
    + split; [now right; right; right | now eexists].
Qed.

Lemma handleSubmit_invalid (fd : formData) (msg : string) :
  validate fd = Some msg -> handleSubmit net fd = (fd, [Alert msg]).
Proof. unfold handleSubmit. now intros ->. Qed.

Lemma handleSubmit_valid (fd : formData) :
  validate fd = None ->
  handleSubmit net fd =
  (fd, Fetch (submitRequest fd) ::
       match trySubmit net (submitRequest fd) with
       | Ok href => [Navigate href]
       | Throw err => [ConsoleError err; Alert "Submission failed."]
       end).
Proof.
  unfold handleSubmit. intros ->.
  now destruct (trySubmit net (submitRequest fd)).
Qed.

Lemma fetches_valid (fd : formData) :
  validDraft fd -> fetches (snd (handleSubmit net fd)) = [submitRequest fd].
Proof.
  intros H. apply validate_None_iff in H.
  rewrite (handleSubmit_valid fd H). simpl.
  now destruct (trySubmit net (submitRequest fd)).
Qed.

End Submission.

Section Validation.

Variable net : network.

(** C3.  A draft that breaks any validation rule (category unset, no
    technology, archive mode without a file, repository mode without an
    http-prefixed URL) gets exactly one alert and no request; the alert is
    that of the first broken rule in the order category, technologies,
    mode-specific field; the draft is returned unchanged. *)
Theorem invalid_draft_is_not_sent (fd : formData) :
  failsValidation fd ->
  exists msg,
    handleSubmit net fd = (fd, [Alert msg]) /\
    fetches (snd (handleSubmit net fd)) = [] /\
    (category fd = "default" -> msg = "Please select a project type.") /\
    (category fd <> "default" -> techStack fd = [] ->
     msg = "Please select at least one technology.") /\
    (category fd <> "default" -> techStack fd <> [] ->
     submissionType fd = "zip" -> msg = "Please upload a zip file.") /\
    (category fd <> "default" -> techStack fd <> [] ->
     submissionType fd <> "zip" ->
     msg = "Please enter a valid Git repository URL.").
Proof.
  intros Hbad. apply validate_fails_iff in Hbad. destruct Hbad as [msg Hmsg].
  exists msg. rewrite (handleSubmit_invalid net fd msg Hmsg).
  split; [reflexivity|]. split; [reflexivity|].
  unfold validate in Hmsg.
  destruct (String.eqb_spec (category fd) "default") as [Hc|Hc].
  { injection Hmsg as <-. repeat split; intros; congruence. }
  destruct (List.length (techStack fd) =? 0)%nat eqn:Ht.
  { apply length_zero_nil in Ht. injection Hmsg as <-.
    repeat split; intros; congruence. }
  assert (Ht' : techStack fd <> []).
  { intros E. apply length_zero_nil in E. congruence. }
  destruct (String.eqb_spec (submissionType fd) "zip") as [Hz|Hz].
  - destruct (file fd); [discriminate|]. injection Hmsg as <-.
    repeat split; intros; congruence.
  - destruct (_ || _); [|discriminate]. injection Hmsg as <-.
    repeat split; intros; congruence.
Qed.

(** C7, as the code has it.  In repository mode a request is sent only if
    the URL begins with [http] (so is non-empty); a URL that does not begin
    with [http] gets one alert and no request, the URL alert when the
    category and technologies are in order; and with those in order every
    URL beginning with [http] passes. *)
Theorem repository_url_checked_by_http_prefix (fd : formData) :
  submissionType fd <> "zip" ->
  (fetches (snd (handleSubmit net fd)) <> [] ->
   startsWith (repoUrl fd) "http" = true /\ repoUrl fd <> "") /\
  (startsWith (repoUrl fd) "http" = false ->
   exists msg, handleSubmit net fd = (fd, [Alert msg])) /\
  (category fd <> "default" -> techStack fd <> [] ->
   startsWith (repoUrl fd) "http" = false ->
   handleSubmit net fd =
   (fd, [Alert "Please enter a valid Git repository URL."])) /\
  (category fd <> "default" -> techStack fd <> [] ->
   startsWith (repoUrl fd) "http" = true ->
   fetches (snd (handleSubmit net fd)) = [submitRequest fd]).
Proof.
  intros Hrepo. repeat split.
  - destruct (startsWith (repoUrl fd) "http") eqn:Hu; [reflexivity|].
    exfalso. apply H.
    assert (Hbad : failsValidation fd) by (right; right; right; auto).
    apply validate_fails_iff in Hbad. destruct Hbad as [m Hm].
    now rewrite (handleSubmit_invalid net fd m Hm).
  - destruct (startsWith (repoUrl fd) "http") eqn:Hu.
    + now apply startsWith_http_nonempty.
    + exfalso. apply H.
      assert (Hbad : failsValidation fd) by (right; right; right; auto).
      apply validate_fails_iff in Hbad. destruct Hbad as [m Hm].
      now rewrite (handleSubmit_invalid net fd m Hm).
  - intros Hu.
    assert (Hbad : failsValidation fd) by (right; right; right; auto).
    apply validate_fails_iff in Hbad. destruct Hbad as [m Hm].
    exists m. now apply handleSubmit_invalid.
  - intros Hc Ht Hu. apply handleSubmit_invalid.
    unfold validate. rewrite url_check, Hu.
    destruct (String.eqb_spec (category fd) "default"); [contradiction|].
    destruct (List.length (techStack fd) =? 0)%nat eqn:E.
    { apply length_zero_nil in E. contradiction. }
    destruct (String.eqb_spec (submissionType fd) "zip"); [contradiction|].
    reflexivity.
  - intros Hc Ht Hu. apply fetches_valid.
    repeat split; auto.
Qed.

End Validation.

(** C3 at the freshly mounted form: the category rule fires first. *)
Lemma invalid_draft_is_not_sent_witness :
  exists msg,
    handleSubmit (replies (JObj [])) initialFormData
    = (initialFormData, [Alert msg]) /\
    fetches (snd (handleSubmit (replies (JObj [])) initialFormData)) = [] /\
    (category initialFormData = "default" ->
     msg = "Please select a project type.") /\
    (category initialFormData <> "default" -> techStack initialFormData = [] ->
     msg = "Please select at least one technology.") /\
    (category initialFormData <> "default" -> techStack initialFormData <> [] ->
     submissionType initialFormData = "zip" ->
     msg = "Please upload a zip file.") /\
    (category initialFormData <> "default" -> techStack initialFormData <> [] ->
     submissionType initialFormData <> "zip" ->
     msg = "Please enter a valid Git repository URL.").
Proof.
  apply (invalid_draft_is_not_sent (replies (JObj [])) initialFormData).
  left. reflexivity.
Defined.

(** C7 as stated fails: [httpx://example.org/p] begins with neither
    [http://] nor [https://], yet the draft passes validation and the
    request goes out with that URL. *)
Lemma httpx_url_is_sent :
  startsWith (repoUrl httpxDraft) "http://" = false /\
  startsWith (repoUrl httpxDraft) "https://" = false /\
  acceptsUrl (repoUrl httpxDraft) = false /\
  submissionType httpxDraft = "repo" /\
  validate httpxDraft = None /\
  handleSubmit (replies (JObj [("job_id", JStr "j1")])) httpxDraft
  = (httpxDraft,
     [Fetch {| url := "http://localhost:8000/submit"; method := "POST";
               body := [("project_type", Text "backend");
                        ("description", Text "Legacy | Tech: Go");
                        ("git_url", Text "httpx://example.org/p")] |};
      Navigate "/verify?job_id=j1"]).
Proof. repeat split. Qed.

(** C7 as amended, at a draft whose URL lacks the prefix. *)
Lemma repository_url_checked_by_http_prefix_witness :
  let fd := {| projectName := ""; category := "backend";
               techStack := ["Go"]; submissionType := "repo";
               repoUrl := "git@github.com:u/p.git"; file := None |} in
  handleSubmit (replies (JObj [])) fd
  = (fd, [Alert "Please enter a valid Git repository URL."]).
Proof.
  intros fd.
  refine (proj1 (proj2 (proj2
    (repository_url_checked_by_http_prefix (replies (JObj [])) fd _))) _ _ _).
  - discriminate.
  - discriminate.
  - discriminate.
  - reflexivity.
Defined.

Section Request.

Variable net : network.

Lemma selectAll_projectName (techs : list string) (fd : formData) :
  projectName (selectAll techs fd) = projectName fd.
Proof.
  revert fd. induction techs as [|t techs IH]; intros fd; [reflexivity|].
  unfold selectAll in *. simpl. now rewrite IH.
Qed.

Lemma arr_includes_false (xs : list string) (x : string) :
  ~ In x xs -> arr_includes xs x = false.
Proof.
  unfold arr_includes. induction xs as [|y xs IH]; intros Hx; simpl.
  - reflexivity.
  - destruct (String.eqb_spec x y) as [->|_].
    + elim Hx. now left.
    + apply IH. intros H. apply Hx. now right.
Qed.

Lemma selectAll_appends (techs : list string) (fd : formData) :
  NoDup (techStack fd ++ techs) ->
  techStack (selectAll techs fd) = (techStack fd ++ techs)%list.
Proof.
  revert fd. induction techs as [|t techs IH]; intros fd Hnd.
  - simpl. now rewrite app_nil_r.
  - assert (Hnew : techStack (fst (toggleTech t fd))
                   = (techStack fd ++ [t])%list).
    { simpl. rewrite arr_includes_false; [reflexivity|].
      apply NoDup_remove_2 in Hnd. intros H. apply Hnd.
      apply in_or_app. now left. }
    change (selectAll (t :: techs) fd)
      with (selectAll techs (fst (toggleTech t fd))).
    rewrite IH; rewrite Hnew, <- app_assoc; [reflexivity | exact Hnd].
Qed.

(** C4.  For a valid draft exactly one request is sent, and of the two
    parts [single_zip] and [git_url] its body holds exactly one entry: in
    archive mode the chosen file under [single_zip] and no [git_url], in
    repository mode the URL under [git_url] and no [single_zip]. *)
Theorem exactly_one_source_part (fd : formData) :
  validDraft fd ->
  exists req,
    fetches (snd (handleSubmit net fd)) = [req] /\
    countKey (body req) "single_zip" + countKey (body req) "git_url" = 1 /\
    (submissionType fd = "zip" ->
     (exists f, file fd = Some f /\
                get (body req) "single_zip" = Some (Blob f)) /\
     has (body req) "git_url" = false) /\
    (submissionType fd <> "zip" ->
     get (body req) "git_url" = Some (Text (repoUrl fd)) /\
     has (body req) "single_zip" = false).
Proof.
  intros Hv. exists (submitRequest fd).
  split; [now apply fetches_valid|].
  destruct Hv as [_ [_ [Hzip _]]].
  unfold submitRequest, buildFormData; simpl.
  destruct (String.eqb_spec (submissionType fd) "zip") as [Hz|Hz].
  - specialize (Hzip Hz). destruct (file fd) as [f|]; [|contradiction].
    repeat split; try contradiction. now exists f.
  - repeat split; congruence.
Qed.

(** C10.  For a valid draft the [description] part of the request is the
    project name, then [" | Tech: "], then the technologies joined by
    [", "] in the order the array holds them; with an empty project name
    it begins with [" | Tech: "]; and the array holds the technologies in
    the order they were selected. *)
Theorem description_wire_format (fd : formData) :
  validDraft fd ->
  exists req,
    fetches (snd (handleSubmit net fd)) = [req] /\
    get (body req) "description"
    = Some (Text (projectName fd ++ " | Tech: "
                  ++ String.concat ", " (techStack fd))) /\
    (projectName fd = "" ->
     get (body req) "description"
     = Some (Text (" | Tech: " ++ String.concat ", " (techStack fd)))) /\
    (forall techs base, techStack base = [] -> NoDup techs ->
       description (selectAll techs base)
       = projectName base ++ " | Tech: " ++ String.concat ", " techs).
Proof.
  intros Hv. exists (submitRequest fd).
  split; [now apply fetches_valid|].
  assert (Hd : get (body (submitRequest fd)) "description"
               = Some (Text (projectName fd ++ " | Tech: "
                             ++ String.concat ", " (techStack fd)))).
  { unfold submitRequest, buildFormData, description; simpl.
    rewrite join_concat.
    now destruct (String.eqb (submissionType fd) "zip"). }
  split; [exact Hd|]. split.
  - intros Hn. rewrite Hd, Hn. reflexivity.
  - intros techs base Hb Hnd. unfold description.
    rewrite selectAll_projectName, join_concat.
    rewrite selectAll_appends; rewrite Hb; [reflexivity | exact Hnd].
Qed.

End Request.

(** C4 at an archive draft. *)
Lemma exactly_one_source_part_witness :
  exists req,
    fetches (snd (handleSubmit (replies (JObj [])) zipDraft)) = [req] /\
    countKey (body req) "single_zip" + countKey (body req) "git_url" = 1 /\
    (submissionType zipDraft = "zip" ->
     (exists f, file zipDraft = Some f /\
                get (body req) "single_zip" = Some (Blob f)) /\
     has (body req) "git_url" = false) /\
    (submissionType zipDraft <> "zip" ->
     get (body req) "git_url" = Some (Text (repoUrl zipDraft)) /\
     has (body req) "single_zip" = false).
Proof.
  apply (exactly_one_source_part (replies (JObj [])) zipDraft).
  repeat split; try discriminate. intros H. now elim H.
Defined.

(** C10 at a repository draft with an empty project name. *)
Lemma description_wire_format_witness :
  exists req,
    fetches (snd (handleSubmit (replies (JObj [])) repoDraft)) = [req] /\
    get (body req) "description"
    = Some (Text (projectName repoDraft ++ " | Tech: "
                  ++ String.concat ", " (techStack repoDraft))) /\
    (projectName repoDraft = "" ->
     get (body req) "description"
     = Some (Text (" | Tech: " ++ String.concat ", " (techStack repoDraft)))) /\
    (forall techs base, techStack base = [] -> NoDup techs ->
       description (selectAll techs base)
       = projectName base ++ " | Tech: " ++ String.concat ", " techs).
Proof.
  apply (description_wire_format (replies (JObj [])) repoDraft).
  repeat split; discriminate.
Defined.

(** ** File selection *)

Section FileSelection.

Lemma isZip_iff (f : File) :
  isZip f = true <->
  (exists q, name f = q ++ ".zip") \/
  (exists a b, type f = a ++ "zip" ++ b) \/
  (exists a b, type f = a ++ "compressed" ++ b).
Proof.
  unfold isZip.
  rewrite !orb_true_iff, endsWith_iff, !includes_iff. tauto.
Qed.

(** C8, as the code has it.  An offered file is stored in the draft exactly
    when its name ends in [.zip] as written (lower case) or its media type
    contains [zip] or [compressed]; then the draft changes in [file] only
    and nothing is reported.  Any other file leaves the draft as it was and
    raises the alert. *)
Theorem file_stored_iff_zip_suffix_or_type (f : File) (prev : formData) :
  let accepted :=
    (exists q, name f = q ++ ".zip") \/
    (exists a b, type f = a ++ "zip" ++ b) \/
    (exists a b, type f = a ++ "compressed" ++ b) in
  (accepted ->
   validateFile f prev
   = ({| projectName := projectName prev; category := category prev;
         techStack := techStack prev;
         submissionType := submissionType prev;
         repoUrl := repoUrl prev; file := Some f |}, [])) /\
  (~ accepted ->
   validateFile f prev = (prev, [Alert "Please upload a .zip file"])).
Proof.
  intros accepted. unfold validateFile. split; intros H.
  - apply isZip_iff in H. now rewrite H.
  - destruct (isZip f) eqn:E; [|reflexivity].
    apply isZip_iff in E. contradiction.
Qed.

(** C9.  A file the check rejects leaves the whole draft, [file] included,
    as it was, whether offered through the picker or dropped; the only
    effect is the alert. *)
Theorem rejected_file_leaves_draft (f : File) (others : list File)
  (prev : formData) :
  isZip f = false ->
  validateFile f prev = (prev, [Alert "Please upload a .zip file"]) /\
  handleDrop (f :: others) prev
  = (prev, [Alert "Please upload a .zip file"]) /\
  file (fst (validateFile f prev)) = file prev.
Proof.
  intros H. unfold handleDrop, validateFile. rewrite H. repeat split.
Qed.

End FileSelection.

(** C8 as stated fails: [PROJECT.ZIP] ends in [.zip] when compared
    case-insensitively, so the rule of the data model accepts it, but the
    form rejects it and stores nothing. *)
Lemma upper_case_zip_is_rejected :
  acceptsArchive upperZip = true /\
  isZip upperZip = false /\
  validateFile upperZip initialFormData
  = (initialFormData, [Alert "Please upload a .zip file"]) /\
  file (fst (validateFile upperZip initialFormData)) = None.
Proof. repeat split. Qed.

(** C9 at a text file offered while an archive is already chosen. *)
Lemma rejected_file_leaves_draft_witness :
  validateFile (mkFile "notes.txt" "text/plain" "hi") zipDraft
  = (zipDraft, [Alert "Please upload a .zip file"]) /\
  handleDrop [mkFile "notes.txt" "text/plain" "hi"] zipDraft
  = (zipDraft, [Alert "Please upload a .zip file"]) /\
  file (fst (validateFile (mkFile "notes.txt" "text/plain" "hi") zipDraft))
  = file zipDraft.
Proof.
  apply (rejected_file_leaves_draft
           (mkFile "notes.txt" "text/plain" "hi") [] zipDraft).
  reflexivity.
Defined.

(** ** Submission outcome *)

Section Outcome.

Variable net : network.

Lemma trySubmit_job_id (req : request) (res : response) (j : json)
  (id : string) :
  net req = Ok res -> json_body res = Ok j ->
  prop j "job_id" = Ok (Val (JStr id)) -> id <> "" ->
  trySubmit net req = Ok ("/verify?job_id=" ++ id).
Proof.
  intros Hn Hb Hp Hid. unfold trySubmit. rewrite Hn; simpl.
  rewrite Hb; simpl. rewrite Hp; simpl.
  destruct (String.eqb_spec id "") as [E|_]; [contradiction|reflexivity].
Qed.

Lemma trySubmit_fails (req : request) :
  submitFails net req -> exists err, trySubmit net req = Throw err.
Proof.
  unfold trySubmit.
  intros [[e He]|[[res [e [Hn Hb]]]|[res [j [Hn [Hb Hp]]]]]].
  - rewrite He. now eexists.
  - rewrite Hn; simpl. rewrite Hb. now eexists.
  - rewrite Hn; simpl. rewrite Hb; simpl.
    destruct (prop j "job_id") as [[|v]|e] eqn:E; simpl.
    + now eexists.
    + elim (Hp v). reflexivity.
    + now eexists.
Qed.

(** The two ways a submit of a valid draft ends, as traces: a non-empty
    string [job_id] gives the request and a navigation to
    [/verify?job_id=] followed by that string as it is; a failed
    transport, a body that is not JSON or a JSON without [job_id] gives
    the request, the logged error and the one alert.  The draft is
    returned unchanged. *)
Lemma handleSubmit_outcomes (fd : formData) :
  validDraft fd ->
  (forall res j id,
     net (submitRequest fd) = Ok res -> json_body res = Ok j ->
     prop j "job_id" = Ok (Val (JStr id)) -> id <> "" ->
     handleSubmit net fd
     = (fd, [Fetch (submitRequest fd); Navigate ("/verify?job_id=" ++ id)]))
  /\
  (submitFails net (submitRequest fd) ->
   (exists err,
      handleSubmit net fd
      = (fd, [Fetch (submitRequest fd); ConsoleError err;
              Alert "Submission failed."])) /\
   alerts (snd (handleSubmit net fd)) = ["Submission failed."] /\
   navigations (snd (handleSubmit net fd)) = [] /\
   fetches (snd (handleSubmit net fd)) = [submitRequest fd] /\
   fst (handleSubmit net fd) = fd).
Proof.
  intros Hv. apply validate_None_iff in Hv.
  rewrite (handleSubmit_valid net fd Hv). split.
  - intros res j id Hn Hb Hp Hid.
    now rewrite (trySubmit_job_id _ res j id Hn Hb Hp Hid).
  - intros Hf. apply trySubmit_fails in Hf. destruct Hf as [err ->].
    repeat split. now exists err.
Qed.

End Outcome.

(** ** Result poller *)

Section Poller.

Local Open Scope N_scope.

Variable w : world.
Variable jobId : option string.

Lemma run_add (a b : nat) (s : state) :
  run w jobId (a + b) s = run w jobId b (run w jobId a s).
Proof. revert s. induction a; intros s; simpl; auto. Qed.

Lemma earliest_In (l : list (nat * N)) (x : nat * N) :
  earliest l = Some x -> In x l.
Proof.
  revert x. induction l as [|y l IH]; intros x; simpl; [discriminate|].
  destruct (earliest l) as [z|].
  - destruct (snd z <? snd y); intros [= <-]; auto.
  - intros [= <-]. auto.
Qed.

Lemma earliest_None (l : list (nat * N)) : earliest l = None -> l = [].
Proof.
  destruct l as [|y l]; simpl; [reflexivity|].
  destruct (earliest l) as [z|]; [destruct (snd z <? snd y)|]; discriminate.
Qed.

(** What [settle] does, by the kind of reply. *)
Lemma settle_terminal (o : outcome) (s : state) :
  terminal o = true ->
  exists j, o = Body j /\
    settle o s = {| now := now s; timer := None; issued := issued s;
                    inflight := inflight s; result := Some j |}.
Proof.
  destruct o as [| |j]; simpl; try discriminate.
  destruct (prop j "status") as [v|e]; [|discriminate].
  intros ->. now exists j.
Qed.

Lemma settle_other (o : outcome) (s : state) :
  terminal o = false -> settle o s = s.
Proof.
  destruct o as [| |j]; simpl; try reflexivity.
  destruct (prop j "status") as [v|e]; [|reflexivity]. now intros ->.
Qed.

Lemma terminal_object (props : list (string * json)) :
  lookup "status" props <> Some (JStr "processing") ->
  terminal (Body (JObj props)) = true.
Proof.
  intros H. simpl. destruct (lookup "status" props) as [v|]; [|reflexivity].
  destruct v; simpl; try reflexivity.
  destruct (String.eqb_spec s "processing") as [->|_]; [|reflexivity].
  now elim H.
Qed.

Lemma settle_frame (o : outcome) (s : state) :
  issued (settle o s) = issued s /\ inflight (settle o s) = inflight s /\
  now (settle o s) = now s.
Proof.
  destruct (terminal o) eqn:E.
  - destruct (settle_terminal o s E) as [j [_ ->]]. now repeat split.
  - now rewrite (settle_other o s E).
Qed.

Lemma settle_timer_off (o : outcome) (s : state) :
  timer s = None -> timer (settle o s) = None.
Proof.
  intros H. destruct (terminal o) eqn:E.
  - now destruct (settle_terminal o s E) as [j [_ ->]].
  - now rewrite (settle_other o s E).
Qed.

(** Stepping by cases on what is pending. *)
Lemma step_tick (s : state) (t : N) :
  timer s = Some t -> inflight s = [] -> step w jobId s = fire w jobId t s.
Proof. unfold step, next. now intros -> ->. Qed.

Lemma step_settle (s : state) (t d : N) (k : nat) :
  timer s = Some t -> inflight s = [(k, d)] -> d < t ->
  step w jobId s = settle (reply w k) (arrived k d s).
Proof.
  unfold step, next. intros -> -> Hlt. simpl.
  assert (E1 : (t <? d) = false) by (apply N.ltb_ge; lia).
  assert (E2 : (t =? d) = false) by (apply N.eqb_neq; lia).
  now rewrite E1, E2.
Qed.

Lemma step_timer_off (s : state) :
  timer s = None ->
  timer (step w jobId s) = None /\
  issued (step w jobId s) = issued s /\
  incl (inflight (step w jobId s)) (inflight s) /\
  (result (step w jobId s) = result s \/
   exists k t, In (k, t) (inflight s) /\ terminal (reply w k) = true).
Proof.
  intros Hoff. unfold step, next. rewrite Hoff.
  destruct (earliest (inflight s)) as [[k t]|] eqn:E.
  - apply earliest_In in E.
    destruct (settle_frame (reply w k) (arrived k t s)) as [Hi [Hf _]].
    rewrite Hi, Hf. split; [now apply settle_timer_off|].
    split; [reflexivity|]. split.
    + simpl. intros x Hx. apply filter_In in Hx. tauto.
    + destruct (terminal (reply w k)) eqn:T.
      * right. now exists k, t.
      * left. now rewrite (settle_other _ _ T).
  - repeat split; auto. apply incl_refl.
Qed.

Lemma run_timer_off (m : nat) (s : state) :
  timer s = None ->
  timer (run w jobId m s) = None /\
  issued (run w jobId m s) = issued s /\
  incl (inflight (run w jobId m s)) (inflight s).
Proof.
  revert s. induction m as [|m IH]; intros s Hoff; simpl.
  - repeat split; auto. apply incl_refl.
  - destruct (step_timer_off s Hoff) as [Ht [Hi [Hf _]]].
    destruct (IH _ Ht) as [Ht' [Hi' Hf']].
    split; [exact Ht'|]. split; [congruence|].
    eapply incl_tran; eassumption.
Qed.

Lemma run_result_kept (m : nat) (s : state) :
  timer s = None ->
  (forall k t, In (k, t) (inflight s) -> terminal (reply w k) = false) ->
  result (run w jobId m s) = result s.
Proof.
  revert s. induction m as [|m IH]; intros s Hoff Hno; simpl; [reflexivity|].
  destruct (step_timer_off s Hoff) as [Ht [_ [Hf Hr]]].
  rewrite IH; auto.
  - destruct Hr as [Hr|[k [t [Hin Hterm]]]]; [exact Hr|].
    rewrite (Hno k t Hin) in Hterm. discriminate.
  - intros k t Hin. apply (Hno k t). now apply Hf.
Qed.

Lemma run_quiescent (m : nat) (s : state) :
  timer s = None -> inflight s = [] -> run w jobId m s = s.
Proof.
  intros Hoff Hnone. induction m as [|m IH]; simpl; [reflexivity|].
  unfold step, next. now rewrite Hoff, Hnone.
Qed.

End Poller.

Section PollerClaims.

Local Open Scope N_scope.

Variable w : world.
Variable jobId : option string.

(** C5, as the code has it.  When the outcome that arrives next is a JSON
    object whose [status] is anything but the string [processing] (absent
    and unrecognised values included), the callback stores that object as
    the result, which is then displayed, and clears the timer: from then
    on the timer stays off and no request is issued, however long the
    event loop keeps running.  The stored object stays the result as long
    as no request that was still in flight at that moment brings another
    non-processing reply. *)
Theorem terminal_reply_stops_polling (s : state) (k : nat) (t : N)
  (props : list (string * json)) :
  next w s = Some (Settle k t) ->
  reply w k = Body (JObj props) ->
  lookup "status" props <> Some (JStr "processing") ->
  let s' := step w jobId s in
  result s' = Some (JObj props) /\
  render s' = Pre (JObj props) /\
  timer s' = None /\
  issued s' = issued s /\
  (forall m, issued (run w jobId m s') = issued s') /\
  (forall m, timer (run w jobId m s') = None) /\
  ((forall k' t', In (k', t') (inflight s') ->
                  terminal (reply w k') = false) ->
   forall m, result (run w jobId m s') = Some (JObj props)).
Proof.
  intros Hnext Hreply Hstatus s'.
  assert (Hs' : s' = {| now := t; timer := None; issued := issued s;
                        inflight := inflight (arrived k t s);
                        result := Some (JObj props) |}).
  { unfold s', step. rewrite Hnext, Hreply.
    destruct (settle_terminal (Body (JObj props)) (arrived k t s)
                (terminal_object props Hstatus)) as [j [[= <-] ->]].
    reflexivity. }
  assert (Hoff : timer s' = None) by now rewrite Hs'.
  split; [now rewrite Hs'|]. split; [now rewrite Hs'|].
  split; [exact Hoff|]. split; [now rewrite Hs'|].
  split; [|split].
  - intros m. now destruct (run_timer_off w jobId m s' Hoff) as [_ [H _]].
  - intros m. now destruct (run_timer_off w jobId m s' Hoff) as [H _].
  - intros Hno m.
    rewrite (run_result_kept w jobId m s' Hoff Hno). now rewrite Hs'.
Qed.

End PollerClaims.


(** ** The poller on concrete schedules *)

Section Schedules.

Local Open Scope N_scope.

(** C2 as stated fails: the replies are processing, processing, completed,
    but the third takes 3500 ms, so the timer fires a fourth time at
    12000 ms, before that reply is in: four requests are issued, not
    three. *)
Lemma slow_third_reply_costs_a_fourth_request :
  reply slowThird 0 = Body processing /\
  reply slowThird 1 = Body processing /\
  reply slowThird 2 = Body completed42 /\
  reply slowThird 3 = Rejected /\
  map fst (issued (run slowThird (Some "j") 8 (mount slowThird)))
  = [3000; 6000; 9000; 12000] /\
  result (run slowThird (Some "j") 8 (mount slowThird)) = Some completed42 /\
  next slowThird (run slowThird (Some "j") 8 (mount slowThird)) = None.
Proof. repeat split. Qed.

(** C5 as stated fails: the second request ends the job first, and its
    object is stored and the timer cleared; the first request, still in
    flight, then brings its own non-processing reply, which replaces the
    stored result. *)
Lemma later_outcome_replaces_the_result :
  result (run overtaken (Some "j") 3 (mount overtaken)) = Some completed42 /\
  timer (run overtaken (Some "j") 3 (mount overtaken)) = None /\
  inflight (run overtaken (Some "j") 3 (mount overtaken)) = [(0%nat, 7000)] /\
  result (run overtaken (Some "j") 4 (mount overtaken))
  = Some (JObj [("status", JStr "failed")]) /\
  render (run overtaken (Some "j") 4 (mount overtaken))
  = Pre (JObj [("status", JStr "failed")]).
Proof. repeat split. Qed.

(** C5 as amended, at the third reply of the prompt schedule. *)
Lemma terminal_reply_stops_polling_witness :
  result (run prompt (Some "j") 6 (mount prompt)) = Some completed42 /\
  (forall m, issued (run prompt (Some "j") m
                       (run prompt (Some "j") 6 (mount prompt)))
             = issued (run prompt (Some "j") 6 (mount prompt))).
Proof.
  pose proof (terminal_reply_stops_polling prompt (Some "j")
                (run prompt (Some "j") 5 (mount prompt)) 2%nat 9100
                [("status", JStr "completed"); ("score", JNum "42")]
                eq_refl eq_refl) as H.
  simpl in H. destruct H as [Hres [_ [_ [_ [Hiss _]]]]].
  - discriminate.
  - split; [exact Hres | exact Hiss].
Defined.

(** C6 as stated fails: the first request takes 5000 ms, and when the
    timer fires again at 6000 ms the second request goes out while the
    first is still in flight. *)
Lemma slow_reply_overlaps_next_request :
  latency slowFirst 0 = 5000 /\
  now (run slowFirst (Some "j") 2 (mount slowFirst)) = 6000 /\
  inflight (run slowFirst (Some "j") 2 (mount slowFirst))
  = [(0%nat, 8000); (1%nat, 6100)] /\
  inFlight (run slowFirst (Some "j") 2 (mount slowFirst)) = 2%nat.
Proof. repeat split. Qed.

End Schedules.

(** * Further properties of the form *)

Import FormUI Cadence.

Section TechStack.

Lemma arr_includes_In (xs : list string) (x : string) :
  arr_includes xs x = true <-> In x xs.
Proof.
  unfold arr_includes. rewrite existsb_exists. split.
  - intros [y [Hy E]]. apply String.eqb_eq in E. now subst.
  - intros H. exists x. split; [exact H | apply String.eqb_refl].
Qed.

Lemma arr_includes_app (xs ys : list string) (x : string) :
  arr_includes (xs ++ ys) x = arr_includes xs x || arr_includes ys x.
Proof. apply existsb_app. Qed.

Lemma arr_includes_remove (xs : list string) (t x : string) :
  arr_includes (arr_remove xs t) x
  = arr_includes xs x && negb (String.eqb x t).
Proof.
  unfold arr_includes, arr_remove.
  induction xs as [|y xs IH]; simpl; [reflexivity|].
  destruct (String.eqb_spec y t) as [->|Hyt]; simpl.
  - rewrite IH. destruct (String.eqb_spec x t); simpl.
    + now rewrite !andb_false_r.
    + now rewrite andb_true_r.
  - rewrite IH. destruct (String.eqb_spec x y) as [->|Hxy]; simpl.
    + destruct (String.eqb_spec y t); [contradiction|reflexivity].
    + reflexivity.
Qed.

Lemma arr_remove_absent (xs : list string) (t : string) :
  ~ In t xs -> arr_remove xs t = xs.
Proof.
  unfold arr_remove. induction xs as [|y xs IH]; intros H; simpl.
  - reflexivity.
  - destruct (String.eqb_spec y t) as [->|_]; simpl.
    + elim H. now left.
    + f_equal. apply IH. intros Hin. apply H. now right.
Qed.

Lemma arr_remove_app (xs ys : list string) (t : string) :
  arr_remove (xs ++ ys) t = (arr_remove xs t ++ arr_remove ys t)%list.
Proof. apply filter_app. Qed.

(** X1.  Clicking a technology flips whether that technology is selected and
    leaves the selection of every other technology as it was. *)
Theorem toggle_flips_only_that_technology (tech other : string)
  (fd : formData) :
  arr_includes (techStack (fst (toggleTech tech fd))) other
  = if String.eqb other tech then negb (arr_includes (techStack fd) tech)
    else arr_includes (techStack fd) other.
Proof.
  simpl. destruct (arr_includes (techStack fd) tech) eqn:E.
  - rewrite arr_includes_remove.
    destruct (String.eqb_spec other tech) as [->|_]; simpl.
    + apply andb_false_r.
    + apply andb_true_r.
  - rewrite arr_includes_app. simpl. rewrite orb_false_r.
    destruct (String.eqb_spec other tech) as [->|_]; simpl.
    + now rewrite orb_true_r.
    + now rewrite orb_false_r.
Qed.

(** X2.  Selecting a technology that is not selected and clicking it again
    gives back the draft exactly; clicking a selected one twice keeps the
    same technologies but moves that one to the end of the array (and
    drops any repeats of it). *)
Theorem toggle_twice (tech : string) (fd : formData) :
  (~ In tech (techStack fd) ->
   fst (toggleTech tech (fst (toggleTech tech fd))) = fd) /\
  (In tech (techStack fd) ->
   techStack (fst (toggleTech tech (fst (toggleTech tech fd))))
   = (arr_remove (techStack fd) tech ++ [tech])%list).
Proof.
  split; intros H.
  - assert (E : arr_includes (techStack fd) tech = false).
    { destruct (arr_includes (techStack fd) tech) eqn:E; [|reflexivity].
      apply arr_includes_In in E. contradiction. }
    destruct fd as [pn cat ts st url fl]. unfold toggleTech; simpl in *.
    rewrite E, arr_includes_app. simpl. rewrite String.eqb_refl.
    rewrite orb_true_r, arr_remove_app, (arr_remove_absent ts tech H).
    unfold arr_remove at 1. simpl. rewrite String.eqb_refl. simpl.
    now rewrite app_nil_r.
  - apply arr_includes_In in H. unfold toggleTech; simpl. rewrite H.
    rewrite arr_includes_remove, String.eqb_refl. simpl.
    now rewrite andb_false_r.
Qed.

End TechStack.

Section Sessions.

Lemma handleSubmit_state (net : network) (fd : formData) :
  fst (handleSubmit net fd) = fd.
Proof.
  unfold handleSubmit. destruct (validate fd); [reflexivity|].
  now destruct (trySubmit net (submitRequest fd)).
Qed.

Lemma validateFile_wellFormed (f : File) (fd : formData) :
  wellFormed fd -> wellFormed (fst (validateFile f fd)).
Proof.
  intros Hwf. unfold validateFile. destruct (isZip f) eqn:E; [|exact Hwf].
  destruct Hwf as [Hm [Hc [Hnd [Hin _]]]]. repeat split; auto.
  simpl. intros g [= <-]. exact E.
Qed.

Lemma handleDrop_wellFormed (files : list File) (fd : formData) :
  wellFormed fd -> wellFormed (fst (handleDrop files fd)).
Proof.
  intros Hwf. destruct files as [|f rest]; [exact Hwf|].
  now apply validateFile_wellFormed.
Qed.

Lemma toggleTech_wellFormed (tech : string) (fd : formData) :
  In tech TECH_OPTIONS -> wellFormed fd ->
  wellFormed (fst (toggleTech tech fd)).
Proof.
  intros Htech [Hm [Hc [Hnd [Hin Hf]]]]. repeat split; auto; simpl.
  - destruct (arr_includes (techStack fd) tech) eqn:E.
    + now apply NoDup_filter.
    + apply NoDup_app; auto.
      * constructor; [intros []|constructor].
      * intros x Hx [<-|[]].
        apply arr_includes_In in Hx. congruence.
  - destruct (arr_includes (techStack fd) tech).
    + intros x Hx. apply filter_In in Hx. apply Hin. tauto.
    + intros x Hx. apply in_app_or in Hx. destruct Hx as [Hx|[<-|[]]]; auto.
Qed.

Lemma onData_data (h : handler) (u : ui) :
  data (fst (onData h u)) = fst (h (data u)) /\
  snd (onData h u) = snd (h (data u)).
Proof. unfold onData. now destruct (h (data u)). Qed.

Lemma dispatch_wellFormed (a : action) (u : ui) :
  offered a u = true -> wellFormed (data u) ->
  wellFormed (data (fst (dispatch a u))).
Proof.
  intros Hoff Hwf.
  destruct a as [v|v|tech|v|v|files|status|files|net]; simpl in *.
  - destruct Hwf as [Hm [Hc [Hnd [Hin Hf]]]]. repeat split; auto.
  - apply (arr_includes_In (map fst PROJECT_TYPES)) in Hoff.
    destruct Hwf as [Hm [Hc [Hnd [Hin Hf]]]]. repeat split; auto.
  - apply (arr_includes_In TECH_OPTIONS tech) in Hoff.
    apply (toggleTech_wellFormed tech (data u) Hoff Hwf).
  - destruct Hwf as [Hm [Hc [Hnd [Hin Hf]]]]. repeat split; auto. simpl.
    apply orb_true_iff in Hoff.
    destruct Hoff as [E|E]; apply String.eqb_eq in E; auto.
  - destruct Hwf as [Hm [Hc [Hnd [Hin Hf]]]]. repeat split; auto.
  - destruct (onData_data (handleDrop files) u) as [-> _].
    now apply handleDrop_wellFormed.
  - exact Hwf.
  - unfold handleDropUi.
    destruct (onData_data (handleDrop files)
                {| data := data u; isDragging := false |}) as [-> _].
    now apply handleDrop_wellFormed.
  - destruct (onData_data (handleSubmit net) u) as [-> _].
    now rewrite handleSubmit_state.
Qed.

Lemma initial_wellFormed : wellFormed initialFormData.
Proof.
  repeat split; simpl; auto.
  - constructor.
  - intros x [].
  - discriminate.
Qed.

Lemma session_wellFormed_from (acts : list action) (u : ui) :
  wellFormed (data u) -> wellFormed (data (fst (session acts u))).
Proof.
  revert u. induction acts as [|a rest IH]; intros u Hwf; simpl; auto.
  destruct (offered a u) eqn:Hoff; [|now apply IH].
  pose proof (dispatch_wellFormed a u Hoff Hwf) as Hstep.
  destruct (dispatch a u) as [u' tr]. simpl in Hstep.
  destruct (navigations tr); [|exact Hstep].
  specialize (IH u' Hstep). now destruct (session rest u').
Qed.

(** X3.  Whatever the user does on the page, the draft keeps its shape: the
    mode is [zip] or [repo]; the category is [default] or one of the four
    project types; the technologies are distinct entries of
    [TECH_OPTIONS], so at most twenty; and a stored file always passed the
    zip check. *)
Theorem session_keeps_draft_well_formed (acts : list action) :
  let fd := data (fst (session acts initialUi)) in
  (submissionType fd = "zip" \/ submissionType fd = "repo") /\
  (category fd = "default" \/ In (category fd) (map fst PROJECT_TYPES)) /\
  NoDup (techStack fd) /\
  incl (techStack fd) TECH_OPTIONS /\
  List.length (techStack fd) <= 20 /\
  (forall f, file fd = Some f -> isZip f = true).
Proof.
  intros fd.
  destruct (session_wellFormed_from acts initialUi initial_wellFormed)
    as [Hm [Hc [Hnd [Hin Hf]]]].
  repeat split; auto.
  apply (NoDup_incl_length Hnd Hin).
Qed.

Lemma dispatch_fetch (a : action) (u : ui) (req : request) :
  In (Fetch req) (snd (dispatch a u)) ->
  validate (data u) = None /\ req = submitRequest (data u).
Proof.
  destruct a as [v|v|tech|v|v|files|status|files|net]; simpl;
    try (intros []).
  - destruct (onData_data (handleDrop files) u) as [_ ->].
    destruct files as [|f rest]; simpl; [intros []|].
    unfold validateFile. destruct (isZip f); simpl; [intros []|].
    intros [H|[]]. discriminate.
  - unfold handleDropUi.
    destruct (onData_data (handleDrop files)
                {| data := data u; isDragging := false |}) as [_ ->].
    destruct files as [|f rest]; simpl; [intros []|].
    unfold validateFile. destruct (isZip f); simpl; [intros []|].
    intros [H|[]]. discriminate.
  - destruct (onData_data (handleSubmit net) u) as [_ ->].
    unfold handleSubmit. destruct (validate (data u)) eqn:V; simpl.
    + intros [H|[]]. discriminate.
    + destruct (trySubmit net (submitRequest (data u))); simpl.
      * intros [[= <-]|[H|[]]]; [auto | discriminate].
      * intros [[= <-]|[H|[H|[]]]]; [auto | discriminate | discriminate].
Qed.

Lemma session_fetch (acts : list action) (u : ui) (req : request) :
  wellFormed (data u) ->
  In (Fetch req) (snd (session acts u)) ->
  exists fd, wellFormed fd /\ validate fd = None /\ req = submitRequest fd.
Proof.
  revert u. induction acts as [|a rest IH]; intros u Hwf; simpl.
  - intros [].
  - destruct (offered a u) eqn:Hoff; [|now apply IH].
    pose proof (dispatch_wellFormed a u Hoff Hwf) as Hstep.
    pose proof (dispatch_fetch a u req) as Hfetch.
    destruct (dispatch a u) as [u' tr]. simpl in Hstep, Hfetch.
    destruct (navigations tr).
    + specialize (IH u' Hstep). destruct (session rest u') as [u'' tr'].
      simpl in *. intros Hin. apply in_app_or in Hin.
      destruct Hin as [Hin|Hin]; [|now apply IH].
      exists (data u). destruct (Hfetch Hin). auto.
    + simpl. intros Hin. exists (data u). destruct (Hfetch Hin). auto.
Qed.

(** X4.  Every request a session sends is a POST to the submit address with
    exactly three parts in this order: [project_type], one of the four
    project types; [description]; and either [single_zip] with a file that
    passed the zip check or [git_url] with a text that begins with
    [http]. *)
Theorem session_requests_are_well_formed (acts : list action)
  (req : request) :
  In (Fetch req) (snd (session acts initialUi)) ->
  url req = "http://localhost:8000/submit" /\
  method req = "POST" /\
  exists kind desc source,
    body req = [("project_type", Text kind); ("description", Text desc);
                source] /\
    In kind ["frontend"; "backend"; "fullstack"; "python"] /\
    ((exists f, source = ("single_zip", Blob f) /\ isZip f = true) \/
     (exists u, source = ("git_url", Text u) /\ startsWith u "http" = true)).
Proof.
  intros Hin.
  destruct (session_fetch acts initialUi req initial_wellFormed Hin)
    as [fd [[Hm [Hc [_ [_ Hf]]]] [Hv ->]]].
  apply validate_None_iff in Hv. destruct Hv as [Hcat [_ [Hzip Hrepo]]].
  split; [reflexivity|]. split; [reflexivity|].
  exists (category fd), (description fd).
  unfold submitRequest, buildFormData; simpl.
  destruct (String.eqb_spec (submissionType fd) "zip") as [Hz|Hz].
  - specialize (Hzip Hz). destruct (file fd) as [f|] eqn:E; [|contradiction].
    exists ("single_zip", Blob f). split; [reflexivity|]. split.
    + destruct Hc as [Hc|Hc]; [contradiction|exact Hc].
    + left. exists f. split; [reflexivity|]. now apply Hf.
  - exists ("git_url", Text (repoUrl fd)). split; [reflexivity|]. split.
    + destruct Hc as [Hc|Hc]; [contradiction|exact Hc].
    + right. exists (repoUrl fd). split; [reflexivity|]. now apply Hrepo.
Qed.

End Sessions.

(** A session that fills the form in repository mode and submits. *)
Lemma session_requests_are_well_formed_witness :
  url (submitRequest repoDraft) = "http://localhost:8000/submit" /\
  method (submitRequest repoDraft) = "POST" /\
  exists kind desc source,
    body (submitRequest repoDraft)
    = [("project_type", Text kind); ("description", Text desc); source] /\
    In kind ["frontend"; "backend"; "fullstack"; "python"] /\
    ((exists f, source = ("single_zip", Blob f) /\ isZip f = true) \/
     (exists u, source = ("git_url", Text u) /\ startsWith u "http" = true)).
Proof.
  apply (session_requests_are_well_formed
           [ChooseCategory "backend"; ClickTech "Go"; ClickMode "repo";
            TypeUrl "https://github.com/u/p"; Submit (replies (JObj []))]
           (submitRequest repoDraft)).
  simpl. left. reflexivity.
Defined.

Section SubmitButton.

Lemma disabled_button_agrees_with_validation_aux (fd : formData) :
  submitDisabled fd = false ->
  validate fd <> Some "Please upload a zip file." /\
  (validate fd = Some "Please enter a valid Git repository URL." ->
   repoUrl fd <> "" /\ startsWith (repoUrl fd) "http" = false).
Proof.
  unfold submitDisabled, validate. rewrite url_check.
  destruct (String.eqb_spec (category fd) "default") as [Hc|Hc].
  { intros _. split; discriminate. }
  destruct (List.length (techStack fd) =? 0)%nat.
  { intros _. split; discriminate. }
  destruct (String.eqb_spec (submissionType fd) "zip") as [Hz|Hz].
  - destruct (file fd); [|discriminate]. intros _. split; discriminate.
  - destruct (String.eqb_spec (repoUrl fd) "") as [Hu|Hu]; [discriminate|].
    intros _. destruct (startsWith (repoUrl fd) "http"); simpl;
      split; try discriminate; auto.
Qed.

(** X5.  The submit button and the checks of [handleSubmit].  A disabled
    button never blocks a draft that would pass the checks.  With the
    button enabled the missing-file alert cannot come up, and the URL
    alert comes up only for a non-empty URL that does not begin with
    [http]. *)
Theorem disabled_button_agrees_with_validation (fd : formData) :
  (submitDisabled fd = true -> exists msg, validate fd = Some msg) /\
  (submitDisabled fd = false ->
   validate fd <> Some "Please upload a zip file.") /\
  (submitDisabled fd = false ->
   validate fd = Some "Please enter a valid Git repository URL." ->
   repoUrl fd <> "" /\ startsWith (repoUrl fd) "http" = false).
Proof.
  unfold submitDisabled, validate. rewrite url_check.
  destruct (String.eqb_spec (category fd) "default") as [Hc|Hc].
  { repeat split; try discriminate; now eexists. }
  destruct (List.length (techStack fd) =? 0)%nat.
  { repeat split; try discriminate; now eexists. }
  destruct (String.eqb_spec (submissionType fd) "zip") as [Hz|Hz].
  - destruct (file fd); repeat split; try discriminate; now eexists.
  - destruct (String.eqb_spec (repoUrl fd) "") as [Hu|Hu].
    + rewrite Hu. simpl. repeat split; try discriminate; now eexists.
    + destruct (startsWith (repoUrl fd) "http"); simpl;
        repeat split; try discriminate; auto.
Qed.

(** X6.  One submit has one outcome: either a single alert and no navigation,
    or a single navigation and no alert.  At most one request goes out,
    and one goes out exactly when the draft passes the checks.  The draft
    itself is never changed. *)
Theorem submit_has_one_outcome (net : network) (fd : formData) :
  fst (handleSubmit net fd) = fd /\
  ((exists msg, alerts (snd (handleSubmit net fd)) = [msg] /\
                navigations (snd (handleSubmit net fd)) = []) \/
   (exists href, alerts (snd (handleSubmit net fd)) = [] /\
                 navigations (snd (handleSubmit net fd)) = [href])) /\
  (validate fd = None ->
   fetches (snd (handleSubmit net fd)) = [submitRequest fd]) /\
  (validate fd <> None -> fetches (snd (handleSubmit net fd)) = []).
Proof.
  split; [apply handleSubmit_state|].
  unfold handleSubmit. destruct (validate fd) as [msg|] eqn:V.
  - split; [left; now exists msg|]. split; [discriminate|reflexivity].
  - destruct (trySubmit net (submitRequest fd)) as [href|err]; simpl.
    + split; [right; now exists href|]. split; [reflexivity|].
      intros H. now elim H.
    + split; [left; now eexists|]. split; [reflexivity|].
      intros H. now elim H.
Qed.

(** X7.  What counts as a job id.  For a draft that passes the checks and a
    response whose JSON is not [null]: a truthy [job_id], string or not,
    whose string form [text] can be taken leads to [/verify?job_id=text];
    a truthy [job_id] whose conversion to a string throws (an object with
    a key [toString] of its own, also inside an array) ends in the failure
    alert with that error; a [job_id] that is absent, [null], [false], the
    number zero or the empty string ends in the failure alert with the
    error "No job id returned", and these are the only falsy ones. *)
Theorem job_id_is_taken_by_truthiness (net : network) (fd : formData)
  (res : response) (j : json) (v : jsval) :
  validate fd = None ->
  net (submitRequest fd) = Ok res ->
  json_body res = Ok j ->
  prop j "job_id" = Ok v ->
  (forall text, truthy v = true -> val_to_string v = Ok text ->
   handleSubmit net fd
   = (fd, [Fetch (submitRequest fd);
           Navigate ("/verify?job_id=" ++ text)])) /\
  (forall err, truthy v = true -> val_to_string v = Throw err ->
   handleSubmit net fd
   = (fd, [Fetch (submitRequest fd); ConsoleError err;
           Alert "Submission failed."])) /\
  (v = Undefined \/ v = Val JNull \/ v = Val (JBool false) \/
   v = Val (JNum "0") \/ v = Val (JStr "") ->
   handleSubmit net fd
   = (fd, [Fetch (submitRequest fd); ConsoleError "No job id returned";
           Alert "Submission failed."])) /\
  (truthy v = false ->
   v = Undefined \/ v = Val JNull \/ v = Val (JBool false) \/
   v = Val (JNum "0") \/ v = Val (JStr "")) /\
  (forall s, v = Val (JStr s) -> val_to_string v = Ok s) /\
  (forall text, v = Val (JNum text) -> val_to_string v = Ok text) /\
  (forall props, v = Val (JObj props) ->
   val_to_string v
   = match lookup "toString" props with
     | Some _ => Throw "TypeError: Cannot convert object to primitive value"
     | None => Ok "[object Object]"
     end).
Proof.
  intros Hv Hn Hb Hp. rewrite (handleSubmit_valid net fd Hv).
  unfold trySubmit. rewrite Hn; simpl. rewrite Hb; simpl. rewrite Hp; simpl.
  split; [|split; [|split; [|split]]].
  - intros text -> ->. reflexivity.
  - intros err -> ->. reflexivity.
  - intros [-> | [-> | [-> | [-> | ->]]]]; reflexivity.
  - destruct v as [|k]; [auto|].
    destruct k as [|b|n|s|items|props]; simpl; auto; try discriminate.
    + intros ->. auto.
    + intros H. apply negb_false_iff, String.eqb_eq in H. subst. auto 6.
    + intros H. apply negb_false_iff, String.eqb_eq in H. subst. auto 6.
  - repeat split; intros; subst; reflexivity.
Qed.

End SubmitButton.

(** A numeric job id is accepted and handed on in its string form; an
    object with a key [toString] is truthy but cannot be converted. *)
Lemma job_id_is_taken_by_truthiness_witness :
  handleSubmit (replies (JObj [("job_id", JNum "1e+21")])) repoDraft
  = (repoDraft, [Fetch (submitRequest repoDraft);
                 Navigate "/verify?job_id=1e+21"]) /\
  handleSubmit
    (replies (JObj [("job_id", JObj [("toString", JNum "1")])])) repoDraft
  = (repoDraft,
     [Fetch (submitRequest repoDraft);
      ConsoleError "TypeError: Cannot convert object to primitive value";
      Alert "Submission failed."]).
Proof.
  split.
  - refine (proj1 (job_id_is_taken_by_truthiness
                     (replies (JObj [("job_id", JNum "1e+21")])) repoDraft
                     {| json_body := Ok (JObj [("job_id", JNum "1e+21")]) |}
                     (JObj [("job_id", JNum "1e+21")]) (Val (JNum "1e+21"))
                     _ _ _ _) "1e+21" _ _);
      reflexivity.
  - refine (proj1 (proj2 (job_id_is_taken_by_truthiness
                     (replies (JObj [("job_id",
                                      JObj [("toString", JNum "1")])]))
                     repoDraft
                     {| json_body :=
                          Ok (JObj [("job_id",
                                     JObj [("toString", JNum "1")])]) |}
                     (JObj [("job_id", JObj [("toString", JNum "1")])])
                     (Val (JObj [("toString", JNum "1")]))
                     _ _ _ _)) _ _ _);
      reflexivity.
Defined.

Section Offering.

Lemma offerAll_cons (f : File) (files : list File) (fd : formData)
  (tr : list effect) :
  fold_left (fun acc f => let (fd', tr) := validateFile f (fst acc) in
                          (fd', (snd acc ++ tr)%list))
            files (fd, tr)
  = (fst (offerAll files fd), (tr ++ snd (offerAll files fd))%list).
Proof.
  unfold offerAll. revert fd tr.
  induction files as [|g files IH]; intros fd tr; simpl.
  - now rewrite app_nil_r.
  - destruct (validateFile g fd) as [fd' tr'] eqn:E. simpl.
    rewrite (IH fd' (tr ++ tr')%list), (IH fd' tr').
    simpl. now rewrite app_assoc.
Qed.

Lemma offerAll_step (f : File) (files : list File) (fd : formData) :
  offerAll (f :: files) fd
  = (fst (offerAll files (fst (validateFile f fd))),
     (snd (validateFile f fd)
      ++ snd (offerAll files (fst (validateFile f fd))))%list).
Proof.
  unfold offerAll at 1. simpl.
  destruct (validateFile f fd) as [fd' tr'] eqn:E. simpl.
  apply (offerAll_cons f).
Qed.

Lemma find_snoc {A} (p : A -> bool) (l : list A) (x : A) :
  find p (l ++ [x])
  = match find p l with
    | Some y => Some y
    | None => if p x then Some x else None
    end.
Proof.
  induction l as [|y l IH]; simpl; [reflexivity|].
  destruct (p y); [reflexivity|exact IH].
Qed.

(** X8.  Offering any number of files one after the other: the draft ends up
    holding the last file that passes the zip check, or the file it held
    before if none passes; each file that fails raises one alert; no other
    field of the draft changes. *)
Theorem last_accepted_file_is_kept (files : list File) (fd : formData) :
  file (fst (offerAll files fd))
  = match find isZip (rev files) with
    | Some f => Some f
    | None => file fd
    end /\
  alerts (snd (offerAll files fd))
  = repeat "Please upload a .zip file"
           (List.length (filter (fun f => negb (isZip f)) files)) /\
  projectName (fst (offerAll files fd)) = projectName fd /\
  category (fst (offerAll files fd)) = category fd /\
  techStack (fst (offerAll files fd)) = techStack fd /\
  submissionType (fst (offerAll files fd)) = submissionType fd /\
  repoUrl (fst (offerAll files fd)) = repoUrl fd.
Proof.
  revert fd. induction files as [|f files IH]; intros fd.
  - repeat split.
  - rewrite offerAll_step. simpl fst. simpl snd.
    destruct (IH (fst (validateFile f fd)))
      as [Hfile [Hal [Hpn [Hcat [Hts [Hst Hurl]]]]]].
    rewrite Hfile, Hpn, Hcat, Hts, Hst, Hurl.
    assert (Halerts : forall a b, alerts (a ++ b) = (alerts a ++ alerts b)%list).
    { intros a b. unfold alerts. apply flat_map_app. }
    rewrite Halerts, Hal. simpl rev.
    rewrite find_snoc. unfold validateFile. simpl filter.
    destruct (isZip f) eqn:E; simpl.
    + repeat split. now destruct (find isZip (rev files)).
    + repeat split. now destruct (find isZip (rev files)).
Qed.

End Offering.

(** * Further properties of the poller *)

Section Runs.

Local Open Scope N_scope.

Variable w : world.
Variable jobId : option string.

Lemma last_cons {A} (l : list A) (a d : A) : last (a :: l) d = last l a.
Proof.
  revert a d. induction l as [|b l IH]; intros a d; [reflexivity|].
  change (last (a :: b :: l) d) with (last (b :: l) d).
  now rewrite (IH b d), (IH b a).
Qed.

Lemma spaced_snoc (from : N) (times : list N) (t : N) :
  spaced from (times ++ [t])
  <-> spaced from times /\ last times from + interval <= t.
Proof.
  revert from. induction times as [|u times IH]; intros from.
  - simpl. tauto.
  - change (spaced from ((u :: times) ++ [t]))
      with (from + interval <= u /\ spaced u (times ++ [t])).
    rewrite IH, last_cons. simpl. tauto.
Qed.

Lemma next_tick (s : state) (t : N) :
  next w s = Some (Tick t) -> timer s = Some t.
Proof.
  unfold next. destruct (timer s) as [t'|];
    destruct (earliest (inflight s)) as [[k d]|]; try discriminate.
  - destruct (_ || _); [now intros [= ->]|discriminate].
  - now intros [= ->].
Qed.

Lemma next_settle (s : state) (k : nat) (d : N) :
  next w s = Some (Settle k d) -> In (k, d) (inflight s).
Proof.
  unfold next. destruct (timer s) as [t'|];
    destruct (earliest (inflight s)) as [[k' d']|] eqn:E; try discriminate.
  - destruct (_ || _); [discriminate|].
    intros [= -> ->]. now apply earliest_In.
  - intros [= -> ->]. now apply earliest_In.
Qed.

Lemma next_none (s : state) :
  next w s = None -> timer s = None /\ inflight s = [].
Proof.
  unfold next. destruct (timer s) as [t'|];
    destruct (earliest (inflight s)) as [[k' d']|] eqn:E; try discriminate.
  - destruct (_ || _); discriminate.
  - intros _. split; [reflexivity|]. now apply earliest_None.
Qed.

Lemma arrived_length (l : list (nat * N)) (k : nat) (d : N) :
  NoDup (map fst l) -> In (k, d) l ->
  (List.length (filter (fun p => negb (fst p =? k)%nat) l) + 1
   = List.length l)%nat.
Proof.
  induction l as [|[k' d'] l IH]; intros Hnd Hin; [destruct Hin|].
  simpl in *. apply NoDup_cons_iff in Hnd. destruct Hnd as [Hk Hnd].
  destruct (Nat.eqb_spec k' k) as [->|Hne]; simpl.
  - assert (E : filter (fun p => negb (fst p =? k)%nat) l = l).
    { clear IH Hin Hnd. induction l as [|[k2 d2] l IHl]; simpl; auto.
      destruct (Nat.eqb_spec k2 k) as [->|_]; simpl.
      - elim Hk. now left.
      - f_equal. apply IHl. intros H. apply Hk. now right. }
    rewrite E. lia.
  - destruct Hin as [[= -> _]|Hin]; [contradiction|].
    specialize (IH Hnd Hin). lia.
Qed.

Lemma arrived_sub (l : list (nat * N)) (k : nat) :
  NoDup (map fst l) ->
  NoDup (map fst (filter (fun p => negb (fst p =? k)%nat) l)).
Proof.
  induction l as [|[k' d'] l IH]; intros Hnd; simpl; [constructor|].
  simpl in Hnd. apply NoDup_cons_iff in Hnd. destruct Hnd as [Hk Hnd].
  destruct (negb (k' =? k)%nat); simpl; [|now apply IH].
  constructor; [|now apply IH].
  intros H. apply Hk. apply in_map_iff in H.
  destruct H as [p [Hp Hin]]. apply filter_In in Hin.
  apply in_map_iff. exists p. tauto.
Qed.

Lemma mount_sound : sound w jobId (mount w).
Proof.
  unfold sound, lastStart; cbn -[N.add N.le interval].
  repeat split; auto.
  - constructor.
  - intros k d [].
  - intros t H.
    assert (E : t = interval + jitter w 0) by congruence.
    rewrite E. lia.
  - discriminate.
Qed.

Lemma step_sound (s : state) :
  sound w jobId s -> sound w jobId (step w jobId s).
Proof.
  intros [Hnd [Hlt [Hurl [Hsp [Hdue Hres]]]]].
  unfold step. destruct (next w s) as [[t|k d]|] eqn:E.
  - apply next_tick in E.
    assert (Hnone : result s = None).
    { destruct (result s); [|reflexivity].
      destruct Hres as [Hoff _]. congruence. }
    unfold sound, lastStart, fire; cbn -[N.add N.le interval].
    rewrite Hnone, !map_app; cbn -[N.add N.le interval].
    repeat split.
    + apply NoDup_app; auto.
      * constructor; [intros []|constructor].
      * intros x Hx [<-|[]]. apply in_map_iff in Hx.
        destruct Hx as [[k d] [Hk Hin]]. simpl in Hk. subst.
        specialize (Hlt _ _ Hin). lia.
    + intros k d Hin. rewrite List.length_app. simpl.
      apply in_app_or in Hin. destruct Hin as [Hin|[[= <- _]|[]]].
      * specialize (Hlt _ _ Hin). lia.
      * lia.
    + apply Forall_app. split; [exact Hurl|]. now repeat constructor.
    + apply spaced_snoc. split; [exact Hsp|]. now apply Hdue.
    + intros t' H.
      assert (E' : t' = t + interval
                        + jitter w (S (List.length (issued s))))
        by congruence.
      rewrite E', last_last. lia.
    + discriminate.
  - apply next_settle in E.
    assert (Hmid : sound w jobId (arrived k d s)).
    { unfold sound, lastStart, arrived; cbn -[N.add N.le interval].
      repeat split; auto.
      - now apply arrived_sub.
      - intros k' d' Hin. apply filter_In in Hin. apply (Hlt k' d'). tauto. }
    destruct (terminal (reply w k)) eqn:T.
    + destruct (settle_terminal (reply w k) (arrived k d s) T)
        as [j [Hj ->]].
      destruct Hmid as [Hnd' [Hlt' [Hurl' [Hsp' _]]]].
      unfold sound, lastStart; cbn -[N.add N.le interval].
      repeat split; auto.
      * discriminate.
      * exists k. split; [now apply (Hlt k d)|].
        split; [exact Hj|]. rewrite Hj in T. exact T.
    + now rewrite (settle_other _ _ T).
  - repeat split; auto.
Qed.

Lemma run_sound (n : nat) (s : state) :
  sound w jobId s -> sound w jobId (run w jobId n s).
Proof.
  revert s. induction n as [|n IH]; intros s Hs; simpl; [exact Hs|].
  apply IH. now apply step_sound.
Qed.

(** X10.  The cadence of every run, whatever the service does: each status
    request goes to the result address followed by the job id the page
    was opened with (the text [null] when it was opened without one); the
    first request starts at least 3000 ms after mount and every later one
    at least 3000 ms after the one before. *)
Theorem requests_are_spaced_and_addressed (n : nat) :
  spaced 0 (map fst (issued (run w jobId n (mount w)))) /\
  Forall (fun p => snd p = ("http://localhost:8000/result/" ++
                            match jobId with
                            | Some id => id
                            | None => "null"
                            end)%string)
         (issued (run w jobId n (mount w))).
Proof.
  destruct (run_sound n (mount w) mount_sound)
    as [_ [_ [Hurl [Hsp _]]]].
  split; [exact Hsp | exact Hurl].
Qed.

(** X11.  Where a displayed result comes from: as long as no result is stored
    the timer is armed and the page shows "Processing"; once a result is
    stored the timer is off and the result is the JSON body of the reply
    to one of the requests issued, a reply that was not a processing
    status. *)
Theorem result_is_a_non_processing_reply (n : nat) :
  match result (run w jobId n (mount w)) with
  | None =>
      timer (run w jobId n (mount w)) <> None /\
      render (run w jobId n (mount w)) = Processing
  | Some j =>
      timer (run w jobId n (mount w)) = None /\
      exists k, (k < List.length (issued (run w jobId n (mount w))))%nat /\
                reply w k = Body j /\
                j <> JNull /\
                forall props, j = JObj props ->
                  lookup "status" props <> Some (JStr "processing")
  end.
Proof.
  destruct (run_sound n (mount w) mount_sound)
    as [_ [_ [_ [_ [_ Hres]]]]].
  unfold render.
  destruct (result (run w jobId n (mount w))) as [j|].
  - destruct Hres as [Hoff [k [Hk [Hr T]]]].
    split; [exact Hoff|]. exists k. repeat split; auto.
    + intros ->. discriminate T.
    + intros props -> H. simpl in T. rewrite H in T. discriminate T.
  - split; [exact Hres | reflexivity].
Qed.

End Runs.

Section Persistence.

Local Open Scope N_scope.

Variable w : world.
Variable jobId : option string.

Lemma step_counts (s : state) :
  sound w jobId s -> timer s <> None ->
  terminal (match next w s with
            | Some (Settle k _) => reply w k
            | _ => Rejected
            end) = false ->
  timer (step w jobId s) <> None /\
  result (step w jobId s) = result s /\
  (2 * List.length (issued (step w jobId s)) + List.length (inflight s)
   = 2 * List.length (issued s) + List.length (inflight (step w jobId s))
     + 1)%nat.
Proof.
  intros [Hnd [Hlt _]] Hon Hkeep. unfold step.
  destruct (next w s) as [[t|k d]|] eqn:E.
  - unfold fire; simpl. rewrite !List.length_app. simpl.
    repeat split; [discriminate | lia].
  - rewrite (settle_other _ _ Hkeep). apply next_settle in E.
    pose proof (arrived_length (inflight s) k d Hnd E) as Hlen.
    simpl. repeat split; [exact Hon | lia].
  - apply next_none in E. destruct E as [E _]. contradiction.
Qed.

(** X12.  No retry limit.  If no reply ever ends the job (each request fails in
    transport, or its body is not JSON, or is [null], or says
    processing), the poller never stops: after any number of events the
    timer is still armed, the page still shows "Processing", and at least
    half of the events were new requests. *)
Theorem polls_forever_without_terminal_reply :
  (forall k, terminal (reply w k) = false) ->
  forall n,
    timer (run w jobId n (mount w)) <> None /\
    result (run w jobId n (mount w)) = None /\
    render (run w jobId n (mount w)) = Processing /\
    (n <= 2 * List.length (issued (run w jobId n (mount w))))%nat.
Proof.
  intros Hnever n.
  assert (Hgen : forall n s, sound w jobId s -> timer s <> None ->
            timer (run w jobId n s) <> None /\
            result (run w jobId n s) = result s /\
            (2 * List.length (issued (run w jobId n s))
             + List.length (inflight s)
             = 2 * List.length (issued s)
               + List.length (inflight (run w jobId n s)) + n)%nat).
  { clear n. induction n as [|n IH]; intros s Hs Hon; simpl.
    - repeat split; [exact Hon | lia].
    - assert (Hkeep : terminal (match next w s with
                                | Some (Settle k _) => reply w k
                                | _ => Rejected
                                end) = false).
      { destruct (next w s) as [[t|k d]|]; auto. }
      destruct (step_counts s Hs Hon Hkeep) as [Hon' [Hres' Hcnt']].
      destruct (IH (step w jobId s) (step_sound w jobId s Hs) Hon')
        as [Hon2 [Hres2 Hcnt2]].
      repeat split; [exact Hon2 | congruence | lia]. }
  destruct (Hgen n (mount w) (mount_sound w jobId)) as [Hon [Hres Hcnt]].
  { discriminate. }
  simpl in Hres, Hcnt. unfold render. rewrite Hres.
  repeat split; [exact Hon | lia].
Qed.

(** X13.  Which outcomes stop the timer.  A transport failure, a body that is
    not JSON, the JSON value [null], and an object whose [status] is the
    string [processing] leave the component exactly as it was.  Every
    other body, an object without [status] or a number, string, boolean
    or array among them, is stored as the result and clears the timer. *)
Theorem what_stops_the_timer (o : outcome) (s : state) :
  let keepsPolling :=
    o = Rejected \/ o = Unparsable \/ o = Body JNull \/
    exists props, o = Body (JObj props) /\
                  lookup "status" props = Some (JStr "processing") in
  (keepsPolling -> settle o s = s) /\
  (~ keepsPolling ->
   exists j, o = Body j /\
     settle o s = {| now := now s; timer := None; issued := issued s;
                     inflight := inflight s; result := Some j |}).
Proof.
  intros keepsPolling. split.
  - intros [->|[->|[->|[props [-> H]]]]]; try reflexivity.
    simpl. now rewrite H.
  - intros Hno. destruct (terminal o) eqn:T.
    + destruct (settle_terminal o s T) as [j [Hj Hs]]. now exists j.
    + exfalso. apply Hno. unfold keepsPolling.
      destruct o as [| |j]; auto.
      destruct j as [|b|n|str|items|props]; simpl in T; auto;
        try discriminate.
      right. right. right. exists props. split; [reflexivity|].
      destruct (lookup "status" props) as [v|]; [|discriminate].
      destruct v; simpl in T; try discriminate.
      apply negb_false_iff, String.eqb_eq in T. now subst.
Qed.

(** X14.  A falsy body ends polling silently.  When the next outcome is the body
    [0], [false] or the empty string, and no request still in flight
    brings a non-processing reply, the timer is cleared and no request is
    issued any more, yet the page goes on showing "Processing" for as
    long as it stays open. *)
Theorem falsy_body_stops_polling_but_shows_processing (s : state)
  (k : nat) (t : N) (j : json) :
  next w s = Some (Settle k t) ->
  reply w k = Body j ->
  j = JNum "0" \/ j = JBool false \/ j = JStr "" ->
  (forall k' t', In (k', t') (inflight (step w jobId s)) ->
                 terminal (reply w k') = false) ->
  forall m,
    timer (run w jobId m (step w jobId s)) = None /\
    issued (run w jobId m (step w jobId s)) = issued s /\
    result (run w jobId m (step w jobId s)) = Some j /\
    render (run w jobId m (step w jobId s)) = Processing.
Proof.
  intros Hnext Hreply Hj Hrest m.
  assert (T : terminal (Body j) = true).
  { destruct Hj as [->|[->| ->]]; reflexivity. }
  assert (Hs' : step w jobId s
                = {| now := t; timer := None; issued := issued s;
                     inflight := inflight (arrived k t s);
                     result := Some j |}).
  { unfold step. rewrite Hnext, Hreply.
    destruct (settle_terminal (Body j) (arrived k t s) T)
      as [j' [[= <-] ->]].
    reflexivity. }
  assert (Hoff : timer (step w jobId s) = None) by now rewrite Hs'.
  destruct (run_timer_off w jobId m _ Hoff) as [Ht [Hi _]].
  pose proof (run_result_kept w jobId m _ Hoff Hrest) as Hr.
  assert (Hi0 : issued (step w jobId s) = issued s) by now rewrite Hs'.
  assert (Hr0 : result (step w jobId s) = Some j) by now rewrite Hs'.
  rewrite Hi0 in Hi. rewrite Hr0 in Hr.
  unfold render. rewrite Hr.
  repeat split; auto.
  destruct Hj as [->|[->| ->]]; reflexivity.
Qed.

End Persistence.

(** A service that is down is polled without end. *)
Lemma polls_forever_without_terminal_reply_witness :
  timer (run down (Some "j") 40 (mount down)) <> None /\
  result (run down (Some "j") 40 (mount down)) = None /\
  render (run down (Some "j") 40 (mount down)) = Processing /\
  (40 <= 2 * List.length (issued (run down (Some "j") 40 (mount down))))%nat.
Proof.
  apply (polls_forever_without_terminal_reply down (Some "j")).
  intros k. reflexivity.
Defined.

(** The first reply of a service that answers 0. *)
Lemma falsy_body_stops_polling_but_shows_processing_witness :
  timer (run zeroReply None 10 (step zeroReply None
                                  (run zeroReply None 1 (mount zeroReply))))
  = None /\
  issued (run zeroReply None 10 (step zeroReply None
                                   (run zeroReply None 1 (mount zeroReply))))
  = issued (run zeroReply None 1 (mount zeroReply)) /\
  result (run zeroReply None 10 (step zeroReply None
                                   (run zeroReply None 1 (mount zeroReply))))
  = Some (JNum "0") /\
  render (run zeroReply None 10 (step zeroReply None
                                   (run zeroReply None 1 (mount zeroReply))))
  = Processing.
Proof.
  apply (falsy_body_stops_polling_but_shows_processing zeroReply None
           (run zeroReply None 1 (mount zeroReply)) 0%nat 3100%N (JNum "0")).
  - reflexivity.
  - reflexivity.
  - left. reflexivity.
  - intros k' t' H. destruct H.
Defined.

Section Overlap.

Local Open Scope N_scope.

Variable w : world.
Variable jobId : option string.

Lemma earliest_min (l : list (nat * N)) (x : nat * N) :
  earliest l = Some x -> forall y, In y l -> snd x <= snd y.
Proof.
  revert x. induction l as [|z l IH]; intros x; simpl; [discriminate|].
  destruct (earliest l) as [m|] eqn:E.
  - destruct (snd m <? snd z) eqn:C; intros [= <-] y [<-|Hy].
    + apply N.ltb_lt in C. lia.
    + now apply IH.
    + lia.
    + apply N.ltb_ge in C. specialize (IH m eq_refl y Hy). lia.
  - intros [= <-] y [<-|Hy]; [lia|].
    apply earliest_None in E. subst. destruct Hy.
Qed.

Lemma next_tick_min (s : state) (t : N) :
  next w s = Some (Tick t) ->
  forall k d, In (k, d) (inflight s) -> t <= d.
Proof.
  unfold next. destruct (timer s) as [t'|];
    destruct (earliest (inflight s)) as [[k0 d0]|] eqn:E; try discriminate.
  - destruct ((t' <? d0) || ((t' =? d0) && timers_first w)) eqn:C;
      [|discriminate].
    intros [= <-] k d Hin.
    pose proof (earliest_min _ _ E (k, d) Hin) as Hmin. simpl in Hmin.
    apply orb_true_iff in C. destruct C as [C|C].
    + apply N.ltb_lt in C. lia.
    + apply andb_true_iff in C. destruct C as [C _].
      apply N.eqb_eq in C. lia.
  - intros _ k d Hin. apply earliest_None in E. rewrite E in Hin.
    destruct Hin.
Qed.

Lemma next_settle_min (s : state) (k : nat) (d : N) :
  next w s = Some (Settle k d) ->
  forall k' d', In (k', d') (inflight s) -> d <= d'.
Proof.
  unfold next. destruct (timer s) as [t'|];
    destruct (earliest (inflight s)) as [[k0 d0]|] eqn:E; try discriminate.
  - destruct (_ || _); [discriminate|]. intros [= <- <-] k' d' Hin.
    apply (earliest_min _ _ E (k', d') Hin).
  - intros [= <- <-] k' d' Hin.
    apply (earliest_min _ _ E (k', d') Hin).
Qed.

Lemma mount_tracked : tracked w (mount w).
Proof.
  unfold tracked, lastStart. simpl. split; [lia|]. intros k d [].
Qed.

Lemma step_tracked (s : state) :
  tracked w s -> tracked w (step w jobId s).
Proof.
  intros [Hclock Hdue]. unfold step.
  destruct (next w s) as [[t|k d]|] eqn:E.
  - pose proof (next_tick_min s t E) as Hmin.
    unfold tracked, lastStart, fire; cbn -[N.add N.le].
    rewrite map_app. cbn -[N.add N.le]. rewrite last_last.
    split; [lia|].
    intros k d Hin. apply in_app_or in Hin.
    destruct Hin as [Hin|[H|[]]].
    + split; [now apply (Hmin k d)|].
      destruct (Hdue k d Hin) as [_ [t0 [Hnth Hd]]].
      exists t0. split; [|exact Hd].
      rewrite nth_error_app1; [exact Hnth|].
      apply nth_error_Some. congruence.
    + assert (Hk : k = List.length (issued s)) by congruence.
      assert (Hd : d = t + latency w (List.length (issued s)))
        by congruence.
      subst k. rewrite Hd. split; [lia|].
      exists t. split; [|reflexivity].
      rewrite nth_error_app2; rewrite length_map; [|lia].
      now rewrite Nat.sub_diag.
  - pose proof (next_settle_min s k d E) as Hmin.
    apply next_settle in E.
    destruct (settle_frame (reply w k) (arrived k d s)) as [Hi [Hf Hn]].
    unfold tracked, lastStart. rewrite Hi, Hf, Hn. simpl.
    destruct (Hdue k d E) as [Hnow _]. split; [unfold lastStart in *; lia|].
    intros k' d' Hin. apply filter_In in Hin. destruct Hin as [Hin _].
    split; [now apply (Hmin k' d')|].
    destruct (Hdue k' d' Hin) as [_ H]. exact H.
  - split; assumption.
Qed.

Lemma spaced_reach (from : N) (times : list N) :
  spaced from times ->
  from + N.of_nat (List.length times) * interval <= last times from.
Proof.
  revert from. induction times as [|u times IH]; intros from Hsp.
  - simpl. lia.
  - destruct Hsp as [Hgap Hsp]. rewrite last_cons.
    specialize (IH u Hsp). cbn [List.length]. rewrite Nat2N.inj_succ.
    unfold interval in *. lia.
Qed.

Lemma spaced_nth (from : N) (times : list N) (k : nat) (t : N) :
  spaced from times -> nth_error times k = Some t ->
  t + N.of_nat (List.length times - 1 - k) * interval <= last times from.
Proof.
  revert from k. induction times as [|u times IH]; intros from k Hsp Hnth.
  - destruct k; discriminate.
  - destruct Hsp as [Hgap Hsp]. rewrite last_cons. destruct k as [|k].
    + injection Hnth as <-. pose proof (spaced_reach u times Hsp) as H.
      cbn [List.length].
      replace (S (List.length times) - 1 - 0)%nat
        with (List.length times) by lia.
      exact H.
    + simpl in Hnth. specialize (IH u k Hsp Hnth). cbn [List.length].
      replace (S (List.length times) - 1 - S k)%nat
        with (List.length times - 1 - k)%nat by lia.
      exact IH.
Qed.

(** X15.  Bounded overlap.  If the outcome of every request is known less than
    [m] intervals (m times 3000 ms) after the request was issued, at most
    [m] requests are ever in flight together. *)
Theorem overlap_is_bounded_by_latency (m : nat) :
  (forall k, latency w k < N.of_nat m * interval) ->
  forall n, (List.length (inflight (run w jobId n (mount w))) <= m)%nat.
Proof.
  intros Hlat n.
  assert (Htr : forall n s, tracked w s -> tracked w (run w jobId n s)).
  { clear n. induction n as [|n IH]; intros s Hs; simpl; auto.
    apply IH. now apply step_tracked. }
  specialize (Htr n (mount w) mount_tracked).
  pose proof (run_sound w jobId n (mount w) (mount_sound w jobId)) as Hso.
  set (s := run w jobId n (mount w)) in *.
  destruct Htr as [Hclock Hdue].
  destruct Hso as [Hnd [Hlt [_ [Hsp _]]]].
  assert (Hincl : incl (map fst (inflight s))
                       (seq (List.length (issued s) - m) m)).
  { intros k Hk. apply in_map_iff in Hk.
    destruct Hk as [[k' d] [Hk' Hin]]. simpl in Hk'. subst k'.
    destruct (Hdue k d Hin) as [Hnow [t [Hnth Hd]]].
    pose proof (spaced_nth 0 _ k t Hsp Hnth) as Hreach.
    specialize (Hlt k d Hin). specialize (Hlat k).
    unfold lastStart in Hclock. rewrite length_map in Hreach.
    apply in_seq.
    assert (Hgap : N.of_nat (List.length (issued s) - 1 - k) < N.of_nat m).
    { unfold interval in *. nia. }
    lia. }
  pose proof (NoDup_incl_length Hnd Hincl) as Hlen.
  rewrite length_map, length_seq in Hlen. exact Hlen.
Qed.

End Overlap.

(** With the first reply taking 5000 ms, under two intervals, never more
    than two requests overlap. *)
Lemma overlap_is_bounded_by_latency_witness :
  (List.length (inflight (run slowFirst (Some "j") 7 (mount slowFirst)))
   <= 2)%nat.
Proof.
  apply (overlap_is_bounded_by_latency slowFirst (Some "j") 2).
  intros k. simpl. destruct (k =? 0)%nat; reflexivity.
Defined.

Section Alerts.

Lemma validate_messages (fd : formData) (msg : string) :
  validate fd = Some msg ->
  In msg ["Please select a project type.";
          "Please select at least one technology.";
          "Please upload a zip file.";
          "Please enter a valid Git repository URL."].
Proof.
  unfold validate.
  destruct (String.eqb (category fd) "default");
    [intros [= <-]; simpl; auto|].
  destruct (List.length (techStack fd) =? 0)%nat;
    [intros [= <-]; simpl; auto|].
  destruct (String.eqb (submissionType fd) "zip").
  - destruct (file fd); [discriminate|]. intros [= <-]. simpl. auto.
  - destruct (_ || _); [|discriminate]. intros [= <-]. simpl. auto 6.
Qed.

Lemma validateFile_alert (f : File) (fd : formData) (msg : string) :
  In (Alert msg) (snd (validateFile f fd)) ->
  msg = "Please upload a .zip file".
Proof.
  unfold validateFile. destruct (isZip f); simpl; [intros []|].
  intros [[= <-]|[]]. reflexivity.
Qed.

Lemma handleDrop_alert (files : list File) (fd : formData) (msg : string) :
  In (Alert msg) (snd (handleDrop files fd)) ->
  msg = "Please upload a .zip file".
Proof.
  destruct files as [|f rest]; simpl; [intros []|].
  apply validateFile_alert.
Qed.

Lemma dispatch_alert (a : action) (u : ui) (msg : string) :
  offered a u = true ->
  In (Alert msg) (snd (dispatch a u)) ->
  In msg ["Please select a project type.";
          "Please select at least one technology.";
          "Please enter a valid Git repository URL.";
          "Submission failed.";
          "Please upload a .zip file"].
Proof.
  intros Hoff.
  destruct a as [v|v|tech|v|v|files|status|files|net];
    unfold dispatch; try (intros []).
  - destruct (onData_data (handleDrop files) u) as [_ ->].
    intros H. apply handleDrop_alert in H. subst. simpl. auto 6.
  - unfold handleDropUi.
    destruct (onData_data (handleDrop files)
                {| data := data u; isDragging := false |}) as [_ ->].
    intros H. apply handleDrop_alert in H. subst. simpl. auto 6.
  - destruct (onData_data (handleSubmit net) u) as [_ ->].
    unfold offered in Hoff. apply negb_true_iff in Hoff.
    destruct (disabled_button_agrees_with_validation_aux (data u) Hoff)
      as [Hfile _].
    unfold handleSubmit. destruct (validate (data u)) as [m|] eqn:V; simpl.
    + intros [[= <-]|[]]. apply validate_messages in V.
      simpl in V. simpl.
      destruct V as [<-|[<-|[<-|[<-|[]]]]]; auto.
      now elim Hfile.
    + destruct (trySubmit net (submitRequest (data u))); simpl.
      * intros [H|[H|[]]]; discriminate.
      * intros [H|[H|[[= <-]|[]]]]; try discriminate. auto 6.
Qed.

End Alerts.

Section SessionAlerts.

(** X9.  The alerts a user can meet.  Every alert of a session is one of five
    texts: the category, technology and URL messages of the submit checks,
    "Submission failed.", and the file picker's "Please upload a .zip
    file".  The submit check's own "Please upload a zip file." is not
    among them: the submit button is disabled while no file is chosen. *)
Theorem session_alerts_are_known (acts : list action) (u : ui)
  (msg : string) :
  In (Alert msg) (snd (session acts u)) ->
  In msg ["Please select a project type.";
          "Please select at least one technology.";
          "Please enter a valid Git repository URL.";
          "Submission failed.";
          "Please upload a .zip file"] /\
  msg <> "Please upload a zip file.".
Proof.
  intros Hin.
  assert (Hknown : In msg ["Please select a project type.";
                           "Please select at least one technology.";
                           "Please enter a valid Git repository URL.";
                           "Submission failed.";
                           "Please upload a .zip file"]).
  { revert u Hin. induction acts as [|a rest IH]; intros u; simpl.
    - intros [].
    - destruct (offered a u) eqn:Hoff; [|apply IH].
      pose proof (dispatch_alert a u msg Hoff) as Hstep.
      destruct (dispatch a u) as [u' tr]. simpl in Hstep.
      destruct (navigations tr).
      + specialize (IH u'). destruct (session rest u') as [u'' tr'].
        simpl in *. intros Hin. apply in_app_or in Hin.
        destruct Hin as [Hin|Hin]; [now apply Hstep | now apply IH].
      + simpl. exact Hstep. }
  split; [exact Hknown|].
  simpl in Hknown.
  destruct Hknown as [<-|[<-|[<-|[<-|[<-|[]]]]]]; discriminate.
Qed.

End SessionAlerts.

(** Submitting with a file chosen but nothing else filled in. *)
Lemma session_alerts_are_known_witness :
  In "Please select a project type."
     ["Please select a project type.";
      "Please select at least one technology.";
      "Please enter a valid Git repository URL.";
      "Submission failed.";
      "Please upload a .zip file"] /\
  "Please select a project type." <> "Please upload a zip file.".
Proof.
  apply (session_alerts_are_known
           [PickFiles [mkFile "a.zip" "application/zip" "PK"];
            Submit (replies (JObj []))]
           initialUi "Please select a project type.").
  simpl. left. reflexivity.
Defined.

(** * The poller's timing *)

Section SingleFlight.

Local Open Scope N_scope.

Variable w : world.
Variable jobId : option string.

Lemma run_S (n : nat) (s : state) :
  run w jobId (S n) s = step w jobId (run w jobId n s).
Proof.
  replace (S n) with (n + 1)%nat by lia. now rewrite run_add.
Qed.

Lemma next_tick_strict (s : state) (t : N) :
  next w s = Some (Tick t) ->
  forall k d, In (k, d) (inflight s) ->
    t < d \/ (t = d /\ timers_first w = true).
Proof.
  unfold next. destruct (timer s) as [t'|];
    destruct (earliest (inflight s)) as [[k0 d0]|] eqn:E; try discriminate.
  - destruct ((t' <? d0) || ((t' =? d0) && timers_first w)) eqn:C;
      [|discriminate].
    intros [= <-] k d Hin.
    pose proof (earliest_min _ _ E (k, d) Hin) as Hmin. simpl in Hmin.
    apply orb_true_iff in C. destruct C as [C|C].
    + apply N.ltb_lt in C. left. lia.
    + apply andb_true_iff in C. destruct C as [C Htf].
      apply N.eqb_eq in C. destruct (N.eq_dec t' d) as [Heq|Hne].
      * right. auto.
      * left. lia.
  - intros _ k d Hin. apply earliest_None in E. rewrite E in Hin.
    destruct Hin.
Qed.

Lemma step_settle_beats (s : state) (T d : N) (k : nat) :
  timer s = Some T -> inflight s = [(k, d)] ->
  d < T \/ (d = T /\ timers_first w = false) ->
  step w jobId s = settle (reply w k) (arrived k d s).
Proof.
  unfold step, next. intros -> -> Hb. simpl.
  destruct Hb as [Hlt|[-> Htf]].
  - assert (E1 : (T <? d) = false) by (apply N.ltb_ge; lia).
    assert (E2 : (T =? d) = false) by (apply N.eqb_neq; lia).
    now rewrite E1, E2.
  - rewrite N.ltb_irrefl, N.eqb_refl, Htf. reflexivity.
Qed.

Lemma step_tick_late (s : state) (T d : N) (k : nat) :
  timer s = Some T -> inflight s = [(k, d)] ->
  T < d \/ (T = d /\ timers_first w = true) ->
  step w jobId s = fire w jobId T s.
Proof.
  unfold step, next. intros -> -> Hb. simpl.
  destruct Hb as [Hlt|[-> Htf]].
  - apply N.ltb_lt in Hlt. now rewrite Hlt.
  - rewrite N.ltb_irrefl, N.eqb_refl, Htf. reflexivity.
Qed.

Lemma not_beats_late (k : nat) (t : N) :
  ~ beats w k ->
  t + interval + jitter w (S k) < t + latency w k \/
  (t + interval + jitter w (S k) = t + latency w k /\
   timers_first w = true).
Proof.
  unfold beats. intros Hn.
  destruct (N.lt_trichotomy (latency w k) (interval + jitter w (S k)))
    as [H|[H|H]].
  - elim Hn. now left.
  - destruct (timers_first w) eqn:Htf.
    + right. split; [lia | reflexivity].
    + elim Hn. right. now split.
  - left. lia.
Qed.

Lemma single_flight_shape :
  (forall k, (exists n, (k < List.length (issued (run w jobId n (mount w))))%nat)
             -> beats w k) ->
  forall n,
    inflight (run w jobId n (mount w)) = [] \/
    exists k d,
      inflight (run w jobId n (mount w)) = [(k, d)] /\
      forall T, timer (run w jobId n (mount w)) = Some T ->
                d < T \/ (d = T /\ timers_first w = false).
Proof.
  intros Hbeats n. induction n as [|n IH]; [now left|].
  pose proof (Hbeats (List.length (issued (run w jobId n (mount w)))))
    as Hnew.
  rewrite run_S in *. set (s := run w jobId n (mount w)) in *.
  destruct IH as [Hnone|[k [d [Hone Hdue]]]].
  - destruct (timer s) as [t|] eqn:Ht.
    + rewrite (step_tick w jobId s t Ht Hnone) in *. right.
      exists (List.length (issued s)),
             (t + latency w (List.length (issued s))).
      cbn -[N.add N.lt interval]. rewrite Hnone. split; [reflexivity|].
      intros T HT.
      assert (E : T = t + interval + jitter w (S (List.length (issued s))))
        by congruence.
      assert (Hb : beats w (List.length (issued s))).
      { apply Hnew. exists (S n). rewrite run_S. fold s.
        rewrite (step_tick w jobId s t Ht Hnone). simpl.
        rewrite List.length_app. simpl. lia. }
      rewrite E. destruct Hb as [Hb|[Hb Htf]].
      * left. lia.
      * right. split; [lia | exact Htf].
    + left. unfold step, next. now rewrite Ht, Hnone.
  - left.
    assert (Hgone : inflight (arrived k d s) = []).
    { simpl. rewrite Hone. simpl. now rewrite Nat.eqb_refl. }
    destruct (timer s) as [t|] eqn:Ht.
    + rewrite (step_settle_beats s t d k Ht Hone (Hdue t eq_refl)).
      destruct (settle_frame (reply w k) (arrived k d s)) as [_ [-> _]].
      exact Hgone.
    + unfold step, next. rewrite Ht, Hone. simpl.
      destruct (settle_frame (reply w k) (arrived k d s)) as [_ [-> _]].
      exact Hgone.
Qed.

Lemma idle_after_rounds (j : nat) :
  (forall i, (i < j)%nat -> beats w i /\ terminal (reply w i) = false) ->
  (exists T, timer (run w jobId (2 * j) (mount w)) = Some T) /\
  inflight (run w jobId (2 * j) (mount w)) = [] /\
  List.length (issued (run w jobId (2 * j) (mount w))) = j.
Proof.
  induction j as [|j IH]; intros Hearly.
  - simpl. repeat split. now eexists.
  - destruct IH as [[T HT] [Hnone Hlen]].
    { intros i Hi. apply Hearly. lia. }
    destruct (Hearly j) as [Hb Hkeep]; [lia|].
    replace (2 * S j)%nat with (2 * j + 2)%nat by lia.
    rewrite run_add. set (s := run w jobId (2 * j) (mount w)) in *.
    clearbody s.
    change (run w jobId 2 s) with (step w jobId (step w jobId s)).
    rewrite (step_tick w jobId s T HT Hnone).
    rewrite (step_settle_beats (fire w jobId T s)
               (T + interval + jitter w (S (List.length (issued s))))
               (T + latency w (List.length (issued s)))
               (List.length (issued s))).
    + rewrite Hlen, (settle_other _ _ Hkeep).
      cbn -[N.add interval resultUrl]. rewrite Hnone, Hlen.
      cbn -[N.add interval resultUrl]. rewrite Nat.eqb_refl.
      repeat split.
      * now eexists.
      * rewrite List.length_app, Hlen. simpl. lia.
    + reflexivity.
    + simpl. now rewrite Hnone.
    + rewrite Hlen. destruct Hb as [Hb|[Hb Htf]]; [left|right].
      * lia.
      * split; [lia | exact Htf].
Qed.

(** C6, as the code has it.  If the outcome (reply or failure) of every
    request that is issued is handled before the timer fires next, in
    particular whenever it is known less than 3000 ms after the request
    went out, then at every point of the run at most one status request
    is in flight.  The timer itself does not wait: whenever it fires, one
    more request is in flight than before; and when polling is still
    going on, all earlier outcomes came in time and the outcome of a
    request is not in when the timer fires next, that request and its
    successor are in flight together. *)
Theorem single_flight_iff_outcomes_beat_the_timer :
  ((forall k,
      (exists n, (k < List.length (issued (run w jobId n (mount w))))%nat) ->
      beats w k) ->
   forall n, (inFlight (run w jobId n (mount w)) <= 1)%nat) /\
  (forall k, latency w k < interval -> beats w k) /\
  (forall s t, next w s = Some (Tick t) ->
               inFlight (step w jobId s) = S (inFlight s)) /\
  (forall k,
     (forall i, (i < k)%nat -> beats w i /\ terminal (reply w i) = false) ->
     ~ beats w k ->
     inFlight (run w jobId (2 * k + 2) (mount w)) = 2%nat).
Proof.
  split; [|split; [|split]].
  - intros Hbeats n. unfold inFlight.
    destruct (single_flight_shape Hbeats n) as [->|[k [d [-> _]]]];
      simpl; lia.
  - intros k Hlt. left. lia.
  - intros s t Hnext. unfold step, inFlight. rewrite Hnext. simpl.
    rewrite List.length_app. simpl. lia.
  - intros k Hearly Hlate.
    destruct (idle_after_rounds k Hearly) as [[T HT] [Hnone Hlen]].
    rewrite run_add. set (s := run w jobId (2 * k) (mount w)) in *.
    clearbody s.
    change (run w jobId 2 s) with (step w jobId (step w jobId s)).
    rewrite (step_tick w jobId s T HT Hnone).
    rewrite (step_tick_late (fire w jobId T s)
               (T + interval + jitter w (S (List.length (issued s))))
               (T + latency w (List.length (issued s)))
               (List.length (issued s))).
    + unfold inFlight. simpl. rewrite Hnone. reflexivity.
    + reflexivity.
    + simpl. now rewrite Hnone.
    + rewrite Hlen. now apply not_beats_late.
Qed.

End SingleFlight.

(** C6 as amended, on the prompt schedule: every outcome is in after
    100 ms. *)
Lemma single_flight_iff_outcomes_beat_the_timer_witness :
  (inFlight (run prompt (Some "j") 5 (mount prompt)) <= 1)%nat.
Proof.
  apply (proj1 (single_flight_iff_outcomes_beat_the_timer
                  prompt (Some "j"))).
  intros k _. left. reflexivity.
Defined.

Section Schedule.

Local Open Scope N_scope.

Variable w : world.
Variable jobId : option string.

Lemma settle_timer_on (o : outcome) (s : state) (T : N) :
  timer (settle o s) = Some T -> timer s = Some T.
Proof.
  destruct (terminal o) eqn:E.
  - destruct (settle_terminal o s E) as [j [_ ->]]. discriminate.
  - now rewrite (settle_other o s E).
Qed.

Lemma step_onSchedule (s : state) :
  onSchedule w jobId s -> onSchedule w jobId (step w jobId s).
Proof.
  intros [Hiss Hdue]. unfold step.
  destruct (next w s) as [[t|k d]|] eqn:E.
  - apply next_tick in E. specialize (Hdue t E).
    unfold onSchedule, fire; cbn -[N.add interval resultUrl tickTime].
    rewrite List.length_app. cbn -[N.add interval resultUrl tickTime].
    rewrite Nat.add_1_r, seq_S, map_app, <- Hiss.
    cbn -[N.add interval resultUrl tickTime]. split.
    + now rewrite Hdue.
    + intros T HT.
      assert (E' : T = t + interval + jitter w (S (List.length (issued s))))
        by congruence.
      rewrite E', Hdue. reflexivity.
  - destruct (settle_frame (reply w k) (arrived k d s)) as [Hi _].
    unfold onSchedule. rewrite Hi. simpl. split; [exact Hiss|].
    intros T HT. apply settle_timer_on in HT. now apply Hdue.
  - now split.
Qed.

Lemma run_onSchedule (n : nat) :
  onSchedule w jobId (run w jobId n (mount w)).
Proof.
  induction n as [|n IH].
  - split; [reflexivity|]. simpl. intros T [= <-]. reflexivity.
  - rewrite run_S. now apply step_onSchedule.
Qed.

Lemma step_event_count (s : state) :
  sound w jobId s -> next w s <> None ->
  (2 * List.length (issued (step w jobId s)) + List.length (inflight s)
   = 2 * List.length (issued s) + List.length (inflight (step w jobId s))
     + 1)%nat.
Proof.
  intros [Hnd _] Hnext. unfold step.
  destruct (next w s) as [[t|k d]|] eqn:E; [| |now elim Hnext].
  - simpl. rewrite !List.length_app. simpl. lia.
  - apply next_settle in E.
    destruct (settle_frame (reply w k) (arrived k d s)) as [-> [-> _]].
    pose proof (arrived_length (inflight s) k d Hnd E) as Hlen.
    simpl. lia.
Qed.

Lemma run_event_count (n : nat) :
  (2 * List.length (issued (run w jobId n (mount w)))
   = List.length (inflight (run w jobId n (mount w))) + n)%nat \/
  (timer (run w jobId n (mount w)) = None /\
   inflight (run w jobId n (mount w)) = []).
Proof.
  induction n as [|n IH]; [now left|].
  pose proof (run_sound w jobId n (mount w) (mount_sound w jobId)) as Hs.
  rewrite run_S. set (s := run w jobId n (mount w)) in *. clearbody s.
  destruct (next w s) as [e|] eqn:E.
  - destruct IH as [IH|[Hoff Hnone]].
    + left. assert (Hn : next w s <> None) by congruence.
      pose proof (step_event_count s Hs Hn). lia.
    + unfold next in E. rewrite Hoff, Hnone in E. discriminate.
  - right. unfold step. rewrite E. exact (next_none w s E).
Qed.

Lemma next_settle_strict (s : state) (k : nat) (d T : N) :
  next w s = Some (Settle k d) -> timer s = Some T ->
  d < T \/ (d = T /\ timers_first w = false).
Proof.
  unfold next. intros H HT. rewrite HT in H.
  destruct (earliest (inflight s)) as [[k0 d0]|]; [|discriminate].
  destruct ((T <? d0) || ((T =? d0) && timers_first w)) eqn:C;
    [discriminate|].
  injection H as <- <-. apply orb_false_iff in C. destruct C as [C1 C2].
  apply N.ltb_ge in C1. apply andb_false_iff in C2.
  destruct C2 as [C2|C2].
  - apply N.eqb_neq in C2. left. lia.
  - destruct (N.eq_dec d0 T) as [->|Hne]; [right; auto | left; lia].
Qed.

Lemma arrived_keeps (l : list (nat * N)) (k k' : nat) (d' : N) :
  k' <> k -> In (k', d') l ->
  In (k', d') (filter (fun p => negb (fst p =? k)%nat) l).
Proof.
  intros Hne Hin. apply filter_In. split; [exact Hin|]. simpl.
  now destruct (Nat.eqb_spec k' k).
Qed.

Lemma arrived_drops (l : list (nat * N)) (k : nat) :
  ~ In k (map fst (filter (fun p => negb (fst p =? k)%nat) l)).
Proof.
  intros H. apply in_map_iff in H. destruct H as [[k' d'] [Hk Hin]].
  apply filter_In in Hin. destruct Hin as [_ Hf]. simpl in *. subst.
  now rewrite Nat.eqb_refl in Hf.
Qed.

Lemma arrived_subset (l : list (nat * N)) (k x : nat) :
  In x (map fst (filter (fun p => negb (fst p =? k)%nat) l)) ->
  In x (map fst l).
Proof.
  intros H. apply in_map_iff in H. destruct H as [p [Hp Hin]].
  apply filter_In in Hin. apply in_map_iff. exists p. tauto.
Qed.

Lemma inflight_unique (l : list (nat * N)) (k : nat) (d d' : N) :
  NoDup (map fst l) -> In (k, d) l -> In (k, d') l -> d = d'.
Proof.
  induction l as [|[k0 d0] l IH]; intros Hnd H1 H2; [destruct H1|].
  simpl in Hnd. apply NoDup_cons_iff in Hnd. destruct Hnd as [Hk Hnd].
  destruct H1 as [H1|H1]; destruct H2 as [H2|H2].
  - congruence.
  - elim Hk. apply in_map_iff. exists (k, d').
    split; [simpl; congruence | exact H2].
  - elim Hk. apply in_map_iff. exists (k, d).
    split; [simpl; congruence | exact H1].
  - now apply IH.
Qed.

End Schedule.

Section ThreeReplies.

Local Open Scope N_scope.

Variable w : world.
Variable jobId : option string.

Hypothesis reply0 : reply w 0 = Body processing.
Hypothesis reply1 : reply w 1 = Body processing.
Hypothesis reply2 : reply w 2 = Body completed42.

Lemma early_reply_keeps_polling (k : nat) :
  (k < 3)%nat -> k <> 2%nat -> terminal (reply w k) = false.
Proof.
  intros Hlt Hne. destruct k as [|[|k]].
  - now rewrite reply0.
  - now rewrite reply1.
  - lia.
Qed.

Lemma third_reply_ends_polling : terminal (reply w 2) = true.
Proof. now rewrite reply2. Qed.

(** With the third reply in time: never more than three requests, the
    third one still in flight and ahead of the timer while the timer is
    armed, and no result before the third reply is in. *)
Lemma three_in_time (n : nat) :
  beats w 2 ->
  (List.length (issued (run w jobId n (mount w))) <= 3)%nat /\
  (List.length (issued (run w jobId n (mount w))) = 3%nat ->
   timer (run w jobId n (mount w)) = None \/
   exists d T, In (2%nat, d) (inflight (run w jobId n (mount w))) /\
               timer (run w jobId n (mount w)) = Some T /\
               (d < T \/ (d = T /\ timers_first w = false))) /\
  (result (run w jobId n (mount w)) = None \/
   ~ In 2%nat (map fst (inflight (run w jobId n (mount w))))).
Proof.
  intros Hbeats. induction n as [|n IH].
  - simpl. repeat split; [lia | discriminate | now left].
  - pose proof (run_sound w jobId n (mount w) (mount_sound w jobId)) as Hs.
    rewrite run_S. set (s := run w jobId n (mount w)) in *. clearbody s.
    destruct IH as [Hle [Hthird Hres]].
    destruct Hs as [Hnd [Hlt [_ [_ [_ Hstate]]]]].
    unfold step. destruct (next w s) as [[t|k d]|] eqn:E.
    + pose proof (next_tick w s t E) as Ht.
      pose proof (next_tick_strict w s t E) as Hstrict.
      assert (Hnone : result s = None).
      { destruct (result s); [|reflexivity].
        destruct Hstate as [Hoff _]. congruence. }
      assert (Hfew : (List.length (issued s) <= 2)%nat).
      { destruct (Nat.eq_dec (List.length (issued s)) 3) as [H3|H3];
          [|lia].
        destruct (Hthird H3) as [Hoff|[d [T [Hin [HT Hb]]]]];
          [congruence|].
        assert (T = t) by congruence. subst T.
        destruct (Hstrict 2%nat d Hin) as [H|[H Htf]];
          destruct Hb as [Hb|[Hb Hff]]; try lia. congruence. }
      unfold fire; cbn -[N.add N.lt interval resultUrl].
      rewrite List.length_app. cbn -[N.add N.lt interval resultUrl].
      split; [lia|]. split; [|left; exact Hnone].
      intros H3. right.
      assert (H2 : List.length (issued s) = 2%nat) by lia.
      exists (t + latency w 2), (t + interval + jitter w 3).
      rewrite H2. split; [apply in_or_app; right; now left|].
      split; [reflexivity|].
      destruct Hbeats as [Hb|[Hb Htf]]; [left; lia | right].
      split; [lia | exact Htf].
    + pose proof (next_settle w s k d E) as Hin.
      pose proof (Hlt k d Hin) as Hk.
      destruct (Nat.eq_dec k 2) as [->|Hne].
      * destruct (settle_terminal (reply w 2) (arrived 2 d s)
                    third_reply_ends_polling) as [j [_ ->]].
        cbn -[N.add N.lt interval]. split; [exact Hle|].
        split; [now left|]. right. apply arrived_drops.
      * rewrite (settle_other _ _
                   (early_reply_keeps_polling k ltac:(lia) Hne)).
        cbn -[N.add N.lt interval]. split; [exact Hle|]. split.
        -- intros H3. destruct (Hthird H3) as [Hoff|[d2 [T [Hin2 HT]]]];
             [now left|].
           right. exists d2, T. split; [|exact HT].
           apply arrived_keeps; [lia | exact Hin2].
        -- destruct Hres as [Hres|Hres]; [now left|]. right.
           intros H. apply Hres. now apply (arrived_subset _ k).
    + repeat split; assumption.
Qed.

(** With the third reply late: while at most three requests are out the
    timer stays armed, and the third request, once issued, stays in
    flight behind the timer. *)
Lemma three_too_late (n : nat) :
  ~ beats w 2 ->
  (List.length (issued (run w jobId n (mount w))) <= 3)%nat ->
  timer (run w jobId n (mount w)) <> None /\
  (List.length (issued (run w jobId n (mount w))) = 3%nat ->
   exists d T, In (2%nat, d) (inflight (run w jobId n (mount w))) /\
               timer (run w jobId n (mount w)) = Some T /\
               (T < d \/ (T = d /\ timers_first w = true))).
Proof.
  intros Hlate. induction n as [|n IH].
  - intros _. simpl. split; discriminate.
  - pose proof (run_sound w jobId n (mount w) (mount_sound w jobId)) as Hs.
    rewrite run_S. set (s := run w jobId n (mount w)) in *. clearbody s.
    destruct Hs as [Hnd [Hlt _]].
    unfold step. destruct (next w s) as [[t|k d]|] eqn:E.
    + unfold fire; cbn -[N.add N.lt interval resultUrl].
      rewrite List.length_app. cbn -[N.add N.lt interval resultUrl].
      intros Hle. split; [discriminate|]. intros H3.
      assert (H2 : List.length (issued s) = 2%nat) by lia.
      exists (t + latency w 2), (t + interval + jitter w 3).
      rewrite H2. split; [apply in_or_app; right; now left|].
      split; [reflexivity|]. now apply not_beats_late.
    + pose proof (next_settle w s k d E) as Hin.
      pose proof (Hlt k d Hin) as Hk.
      destruct (settle_frame (reply w k) (arrived k d s)) as [Hi [Hf _]].
      rewrite Hi. simpl issued. intros Hle.
      destruct (IH Hle) as [Hon Hthird].
      destruct (Nat.eq_dec k 2) as [->|Hne].
      * exfalso.
        destruct (Hthird ltac:(lia)) as [d2 [T [Hin2 [HT Hb]]]].
        assert (d2 = d) by (eapply inflight_unique; eassumption).
        subst d2.
        destruct (next_settle_strict w s 2%nat d T E HT) as [H|[H Hff]];
          destruct Hb as [Hb|[Hb Htf]]; try lia. congruence.
      * rewrite (settle_other _ _
                   (early_reply_keeps_polling k ltac:(lia) Hne)).
        split; [exact Hon|]. intros H3.
        destruct (Hthird H3) as [d2 [T [Hin2 HT]]].
        exists d2, T. split; [|exact HT].
        apply arrived_keeps; [lia | exact Hin2].
    + intros Hle. now apply IH.
Qed.

(** C2, as the code has it.  The replies are processing, processing,
    completed/42.  If the third reply is handled before the timer fires a
    fourth time (so whenever it is known less than 3000 ms after the
    third request), then whatever the first two replies take: the poller
    issues exactly three requests, the first at least 3000 ms after mount
    and each at least 3000 ms after the one before; at every point of the
    run either nothing is stored, "Processing" is shown and the timer is
    armed, or the third reply is in, the timer is off and the stored and
    displayed result is [{status: "completed", score: 42}]; and from the
    sixth event on the run is over in that state.  If the third reply is
    not handled before the fourth firing, a fourth request is issued. *)
Theorem third_reply_in_time_three_requests :
  let t1 := interval + jitter w 0 in
  let t2 := t1 + interval + jitter w 1 in
  let t3 := t2 + interval + jitter w 2 in
  let three := [(t1, resultUrl jobId); (t2, resultUrl jobId);
                (t3, resultUrl jobId)] in
  (beats w 2 ->
   (forall n,
      (List.length (issued (run w jobId n (mount w))) <= 3)%nat /\
      ((result (run w jobId n (mount w)) = None /\
        render (run w jobId n (mount w)) = Processing /\
        timer (run w jobId n (mount w)) <> None) \/
       (result (run w jobId n (mount w)) = Some completed42 /\
        render (run w jobId n (mount w)) = Pre completed42 /\
        timer (run w jobId n (mount w)) = None /\
        issued (run w jobId n (mount w)) = three /\
        ~ In 2%nat (map fst (inflight (run w jobId n (mount w))))))) /\
   (forall n, (6 <= n)%nat ->
      issued (run w jobId n (mount w)) = three /\
      inflight (run w jobId n (mount w)) = [] /\
      timer (run w jobId n (mount w)) = None /\
      result (run w jobId n (mount w)) = Some completed42 /\
      render (run w jobId n (mount w)) = Pre completed42)) /\
  (latency w 2 < interval -> beats w 2) /\
  (~ beats w 2 ->
   (4 <= List.length (issued (run w jobId 6 (mount w))))%nat) /\
  interval <= t1 /\ t1 + interval <= t2 /\ t2 + interval <= t3.
Proof.
  intros t1 t2 t3 three.
  assert (Hthree : forall n, beats w 2 ->
            List.length (issued (run w jobId n (mount w))) = 3%nat ->
            issued (run w jobId n (mount w)) = three).
  { intros n _ H3. destruct (run_onSchedule w jobId n) as [Hiss _].
    rewrite Hiss, H3. reflexivity. }
  assert (Hdone : forall n, beats w 2 ->
            result (run w jobId n (mount w)) <> None ->
            result (run w jobId n (mount w)) = Some completed42 /\
            timer (run w jobId n (mount w)) = None /\
            List.length (issued (run w jobId n (mount w))) = 3%nat /\
            ~ In 2%nat (map fst (inflight (run w jobId n (mount w))))).
  { intros n Hb Hres.
    destruct (three_in_time n Hb) as [Hle [_ Hout]].
    destruct (run_sound w jobId n (mount w) (mount_sound w jobId))
      as [_ [_ [_ [_ [_ Hstate]]]]].
    destruct (result (run w jobId n (mount w))) as [j|]; [|now elim Hres].
    destruct Hstate as [Hoff [k [Hk [Hr T]]]].
    assert (k = 2%nat).
    { destruct (Nat.eq_dec k 2) as [|Hne]; [assumption|].
      pose proof (early_reply_keeps_polling k ltac:(lia) Hne) as Hkeep.
      rewrite Hr in Hkeep. congruence. }
    subst k. rewrite reply2 in Hr. injection Hr as <-.
    repeat split; auto; [lia|].
    destruct Hout as [Hout|Hout]; [discriminate | exact Hout]. }
  split; [|split; [|split]].
  - intros Hb. split.
    + intros n. destruct (three_in_time n Hb) as [Hle _].
      split; [exact Hle|].
      destruct (result (run w jobId n (mount w))) as [j|] eqn:Hres.
      * right. destruct (Hdone n Hb) as [Hj [Hoff [H3 Hout]]].
        { rewrite Hres. discriminate. }
        rewrite Hres in Hj. injection Hj as ->.
        unfold render. rewrite Hres.
        repeat split; try (now apply Hthree); auto.
      * left. unfold render. rewrite Hres.
        repeat split.
        destruct (run_sound w jobId n (mount w) (mount_sound w jobId))
          as [_ [_ [_ [_ [_ Hstate]]]]].
        now rewrite Hres in Hstate.
    + intros n Hn.
      destruct (three_in_time n Hb) as [Hle [Hthird _]].
      destruct (run_sound w jobId n (mount w) (mount_sound w jobId))
        as [_ [_ [_ [_ [_ Hstate]]]]].
      assert (Hquiet : timer (run w jobId n (mount w)) = None /\
                       inflight (run w jobId n (mount w)) = []).
      { destruct (run_event_count w jobId n) as [Hcnt|Hq]; [|exact Hq].
        assert (H3 : List.length (issued (run w jobId n (mount w)))
                     = 3%nat) by lia.
        assert (Hnone : inflight (run w jobId n (mount w)) = []).
        { destruct (inflight (run w jobId n (mount w)));
            [reflexivity | simpl in Hcnt; lia]. }
        split; [|exact Hnone].
        destruct (Hthird H3) as [Hoff|[d [T [Hin _]]]]; [exact Hoff|].
        rewrite Hnone in Hin. destruct Hin. }
      destruct Hquiet as [Hoff Hnone].
      assert (Hres : result (run w jobId n (mount w)) <> None).
      { intros Hres. rewrite Hres in Hstate. contradiction. }
      destruct (Hdone n Hb Hres) as [Hj [_ [H3 _]]].
      unfold render. rewrite Hj.
      repeat split; try (now apply Hthree); auto.
  - intros Hlt. left. lia.
  - intros Hlate.
    destruct (Nat.le_gt_cases
                (List.length (issued (run w jobId 6 (mount w)))) 3)
      as [Hle|Hgt]; [exfalso | lia].
    destruct (three_too_late 6 Hlate Hle) as [Hon Hthird].
    destruct (run_event_count w jobId 6) as [Hcnt|[Hoff _]];
      [|contradiction].
    assert (H3 : List.length (issued (run w jobId 6 (mount w))) = 3%nat)
      by lia.
    destruct (Hthird H3) as [d [T [Hin _]]].
    destruct (inflight (run w jobId 6 (mount w)));
      [destruct Hin | cbn [List.length] in Hcnt; lia].
  - unfold t3, t2, t1, interval. lia.
Qed.

End ThreeReplies.

(** C2 as amended, on a schedule whose first two replies take 5000 and
    2500 ms and whose third takes 100 ms: three requests, at 3000, 6000
    and 9000 ms. *)
Lemma third_reply_in_time_three_requests_witness :
  issued (run slowFirstTwo (Some "j") 6 (mount slowFirstTwo))
  = [(3000%N, "http://localhost:8000/result/j");
     (6000%N, "http://localhost:8000/result/j");
     (9000%N, "http://localhost:8000/result/j")] /\
  inflight (run slowFirstTwo (Some "j") 6 (mount slowFirstTwo)) = [] /\
  timer (run slowFirstTwo (Some "j") 6 (mount slowFirstTwo)) = None /\
  result (run slowFirstTwo (Some "j") 6 (mount slowFirstTwo))
  = Some completed42 /\
  render (run slowFirstTwo (Some "j") 6 (mount slowFirstTwo))
  = Pre completed42.
Proof.
  refine (proj2 (proj1 (third_reply_in_time_three_requests
                          slowFirstTwo (Some "j") _ _ _) _) 6%nat _).
  - reflexivity.
  - reflexivity.
  - reflexivity.
  - left. reflexivity.
  - apply le_n.
Defined.

(** * From the form to the verify page *)

Import Browser Handoff.

Section QueryBytes.

(** Facts about single bytes, each checked on all 256 of them. *)
Lemma percentEncode_decodes (c : ascii) :
  URLSearchParams.isHex (hexDigit (code c / 16)) = true /\
  URLSearchParams.isHex (hexDigit (code c mod 16)) = true /\
  ascii_of_nat (16 * URLSearchParams.hexValue (hexDigit (code c / 16))
                + URLSearchParams.hexValue (hexDigit (code c mod 16))) = c.
Proof.
  destruct c as [[] [] [] [] [] [] [] []]; vm_compute; repeat split.
Qed.

Lemma hex_is_plain (c : ascii) :
  URLSearchParams.isHex c = true ->
  inQuerySet c = false /\ Ascii.eqb c "%" = false /\
  Ascii.eqb c "+" = false /\ Ascii.eqb c "&" = false.
Proof.
  destruct c as [[] [] [] [] [] [] [] []]; vm_compute;
    intros H; try discriminate H; repeat split.
Qed.

Lemma encoded_is_not_plain (c : ascii) :
  inQuerySet c = true ->
  Ascii.eqb c "%" = false /\ Ascii.eqb c "+" = false /\
  Ascii.eqb c "&" = false /\ URLSearchParams.isHex c = false.
Proof.
  destruct c as [[] [] [] [] [] [] [] []]; vm_compute;
    intros H; try discriminate H; repeat split.
Qed.

Lemma hexDigit_is_hex (n : nat) :
  n < 16 -> URLSearchParams.isHex (hexDigit n) = true.
Proof.
  intros H. do 16 (destruct n as [|n]; [reflexivity|]). lia.
Qed.

End QueryBytes.

Section ReadBack.

Lemma readBack_encoded (c : ascii) (s : string) :
  inQuerySet c = true -> readBack (String c s) = String c (readBack s).
Proof.
  intros H. destruct (percentEncode_decodes c) as [H1 [H2 H3]].
  destruct (hex_is_plain _ H1) as [_ [_ [P1 _]]].
  destruct (hex_is_plain _ H2) as [_ [_ [P2 _]]].
  unfold readBack. cbn [queryEncode]. rewrite H.
  unfold percentEncode.
  cbn [String.append URLSearchParams.plusToSpace]. rewrite P1, P2.
  change (Ascii.eqb "%" "+") with false. cbv iota.
  cbn [URLSearchParams.percentDecode].
  change (Ascii.eqb "%" "%") with true. cbv iota.
  now rewrite H1, H2, H3.
Qed.

Lemma readBack_plus (s : string) :
  readBack (String "+" s) = String " " (readBack s).
Proof. reflexivity. Qed.

Lemma readBack_other (c : ascii) (s : string) :
  inQuerySet c = false -> Ascii.eqb c "%" = false ->
  Ascii.eqb c "+" = false ->
  readBack (String c s) = String c (readBack s).
Proof.
  intros H1 H2 H3. unfold readBack. cbn [queryEncode]. rewrite H1.
  cbn [URLSearchParams.plusToSpace]. rewrite H3.
  cbn [URLSearchParams.percentDecode]. now rewrite H2.
Qed.

Lemma isHex_plusToSpace (a : ascii) :
  URLSearchParams.isHex (if Ascii.eqb a "+" then " "%char else a)
  = URLSearchParams.isHex a.
Proof. destruct (Ascii.eqb_spec a "+") as [->|_]; reflexivity. Qed.

Lemma hexPairAhead_encoded (s : string) :
  hexPairAhead (URLSearchParams.plusToSpace (queryEncode s))
  = hexPairAhead s.
Proof.
  destruct s as [|a [|b r]]; [reflexivity| |].
  - cbn [queryEncode]. destruct (inQuerySet a) eqn:Ea; reflexivity.
  - cbn [queryEncode hexPairAhead]. destruct (inQuerySet a) eqn:Ea.
    + destruct (encoded_is_not_plain a Ea) as [_ [_ [_ ->]]]. reflexivity.
    + destruct (inQuerySet b) eqn:Eb.
      * destruct (encoded_is_not_plain b Eb) as [_ [_ [_ ->]]].
        unfold percentEncode. cbn [String.append URLSearchParams.plusToSpace].
        cbn [hexPairAhead]. change (Ascii.eqb "%" "+") with false.
        cbv iota. change (URLSearchParams.isHex "%") with false.
        now rewrite !andb_false_r.
      * cbn [URLSearchParams.plusToSpace hexPairAhead].
        now rewrite !isHex_plusToSpace.
Qed.

Lemma decode_percent_plain (t : string) :
  hexPairAhead t = false ->
  URLSearchParams.percentDecode (String "%" t)
  = String "%" (URLSearchParams.percentDecode t).
Proof.
  destruct t as [|a [|b r]]; try reflexivity.
  cbn [hexPairAhead]. intros H.
  cbn [URLSearchParams.percentDecode].
  change (Ascii.eqb "%" "%") with true. cbv iota. now rewrite H.
Qed.

Lemma readBack_percent_plain (s : string) :
  hexPairAhead s = false ->
  readBack (String "%" s) = String "%" (readBack s).
Proof.
  intros H. unfold readBack. cbn [queryEncode].
  change (inQuerySet "%") with false. cbv iota.
  cbn [URLSearchParams.plusToSpace].
  change (Ascii.eqb "%" "+") with false. cbv iota.
  apply decode_percent_plain. now rewrite hexPairAhead_encoded.
Qed.

Lemma readBack_percent_escape (a b : ascii) (r : string) :
  URLSearchParams.isHex a = true -> URLSearchParams.isHex b = true ->
  readBack (String "%" (String a (String b r)))
  = String (ascii_of_nat (16 * URLSearchParams.hexValue a
                          + URLSearchParams.hexValue b))
           (readBack r).
Proof.
  intros Ha Hb.
  destruct (hex_is_plain a Ha) as [Qa [_ [Pa _]]].
  destruct (hex_is_plain b Hb) as [Qb [_ [Pb _]]].
  unfold readBack. cbn [queryEncode].
  change (inQuerySet "%") with false. cbv iota. rewrite Qa, Qb.
  cbn [URLSearchParams.plusToSpace].
  change (Ascii.eqb "%" "+") with false. cbv iota. rewrite Pa, Pb.
  cbn [URLSearchParams.percentDecode].
  change (Ascii.eqb "%" "%") with true. cbv iota. now rewrite Ha, Hb.
Qed.

(** What is safe comes back unchanged. *)
Lemma readBack_safe (z : string) :
  allChars (fun c => negb (Ascii.eqb c "+")) z = true ->
  noEscape z = true -> readBack z = z.
Proof.
  induction z as [|c z IH]; [reflexivity|].
  cbn [allChars noEscape]. intros Hplus Hesc.
  apply andb_true_iff in Hplus. destruct Hplus as [Hc Hplus].
  apply andb_true_iff in Hesc. destruct Hesc as [He Hesc].
  apply negb_true_iff in Hc. apply negb_true_iff in He.
  specialize (IH Hplus Hesc).
  destruct (inQuerySet c) eqn:Eq.
  - now rewrite readBack_encoded, IH.
  - destruct (Ascii.eqb_spec c "%") as [->|Hp].
    + simpl in He. now rewrite readBack_percent_plain, IH.
    + rewrite readBack_other, IH; auto.
      now destruct (Ascii.eqb_spec c "%").
Qed.

(** What comes back is never longer, and comes back unchanged only if it
    was safe. *)
Lemma readBack_spec (n : nat) (z : string) :
  String.length z <= n ->
  String.length (readBack z) <= String.length z /\
  (readBack z = z ->
   allChars (fun c => negb (Ascii.eqb c "+")) z = true /\
   noEscape z = true).
Proof.
  revert z. induction n as [|n IH]; intros z Hn.
  - destruct z; [|simpl in Hn; lia]. now repeat split.
  - destruct z as [|c z]; [now repeat split|]. simpl in Hn.
    destruct (IH z ltac:(lia)) as [Hlen Hsafe].
    assert (Hstep : readBack (String c z) = String c (readBack z) ->
              Ascii.eqb c "+" = false ->
              Ascii.eqb c "%" && hexPairAhead z = false ->
              String.length (readBack (String c z))
              <= String.length (String c z) /\
              (readBack (String c z) = String c z ->
               allChars (fun c => negb (Ascii.eqb c "+")) (String c z)
               = true /\ noEscape (String c z) = true)).
    { intros -> Hc He. split; [simpl; lia|].
      intros [= Hz]. destruct (Hsafe Hz) as [H1 H2].
      cbn [allChars noEscape]. now rewrite Hc, He, H1, H2. }
    destruct (inQuerySet c) eqn:Eq.
    + destruct (encoded_is_not_plain c Eq) as [Hp [Hplus _]].
      apply Hstep; [now apply readBack_encoded | exact Hplus|].
      now rewrite Hp.
    + destruct (Ascii.eqb_spec c "+") as [->|Hplus].
      * rewrite readBack_plus. split; [simpl; lia | discriminate].
      * assert (Hplus' : Ascii.eqb c "+" = false)
          by now destruct (Ascii.eqb_spec c "+").
        destruct (Ascii.eqb_spec c "%") as [->|Hp].
        -- destruct (hexPairAhead z) eqn:Ha.
           ++ destruct z as [|a [|b r]]; try discriminate Ha.
              cbn [hexPairAhead] in Ha. apply andb_true_iff in Ha.
              destruct Ha as [Ha Hb].
              rewrite (readBack_percent_escape a b r Ha Hb).
              destruct (IH r ltac:(simpl in Hn; lia)) as [Hr _].
              split; [simpl; lia|].
              intros H. apply (f_equal String.length) in H.
              simpl in H. lia.
           ++ apply Hstep;
                [now apply readBack_percent_plain | reflexivity
                | reflexivity].
        -- assert (Hp' : Ascii.eqb c "%" = false)
             by now destruct (Ascii.eqb_spec c "%").
           apply Hstep;
             [now apply readBack_other | reflexivity | reflexivity].
Qed.

Lemma before_encoded (z : string) :
  before "&" (queryEncode z) = queryEncode (before "&" z).
Proof.
  induction z as [|c z IH]; [reflexivity|].
  cbn [queryEncode before]. destruct (inQuerySet c) eqn:Eq.
  - destruct (encoded_is_not_plain c Eq) as [_ [_ [Hamp _]]].
    rewrite Hamp. cbn [queryEncode]. rewrite Eq, <- IH.
    destruct (percentEncode_decodes c) as [H1 [H2 _]].
    destruct (hex_is_plain _ H1) as [_ [_ [_ A1]]].
    destruct (hex_is_plain _ H2) as [_ [_ [_ A2]]].
    unfold percentEncode. cbn [String.append before].
    change (Ascii.eqb "%" "&") with false. cbv iota.
    now rewrite A1, A2.
  - cbn [before]. destruct (Ascii.eqb c "&") eqn:Ec; [reflexivity|].
    cbn [queryEncode]. now rewrite Eq, IH.
Qed.

End ReadBack.

Section UrlParsing.

Lemma dropTrailing_keep (c : ascii) (s : string) :
  isC0OrSpace c = false ->
  dropTrailing (String c s) = String c (dropTrailing s).
Proof. intros H. simpl. rewrite H. now destruct (dropTrailing s). Qed.

Lemma dropTrailing_length (s : string) :
  String.length (dropTrailing s) <= String.length s.
Proof.
  induction s as [|c s IH]; simpl; [lia|].
  destruct (dropTrailing s); [destruct (isC0OrSpace c)|]; simpl in *; lia.
Qed.

Lemma dropTrailing_clean (s : string) :
  endsClean s = true -> dropTrailing s = s.
Proof.
  induction s as [|c s IH]; [reflexivity|]. cbn [endsClean dropTrailing].
  destruct s as [|d s].
  - simpl. intros H. apply negb_true_iff in H. now rewrite H.
  - intros H. rewrite (IH H). reflexivity.
Qed.

Lemma dropTrailing_full (s : string) :
  String.length (dropTrailing s) = String.length s -> endsClean s = true.
Proof.
  induction s as [|c s IH]; [reflexivity|]. cbn [endsClean dropTrailing].
  pose proof (dropTrailing_length s) as Hle.
  destruct s as [|d s].
  - simpl. destruct (isC0OrSpace c); [discriminate|reflexivity].
  - destruct (dropTrailing (String d s)) as [|a r] eqn:E.
    + destruct (isC0OrSpace c); simpl; intros H; lia.
    + intros H. apply IH. simpl in *. lia.
Qed.

Lemma removeTabNewline_length (s : string) :
  String.length (removeTabNewline s) <= String.length s.
Proof.
  induction s as [|c s IH]; simpl; [lia|].
  destruct (isTabOrNewline c); simpl; lia.
Qed.

Lemma removeTabNewline_clean (s : string) :
  allChars (fun c => negb (isTabOrNewline c)) s = true ->
  removeTabNewline s = s.
Proof.
  induction s as [|c s IH]; [reflexivity|]. simpl. intros H.
  apply andb_true_iff in H. destruct H as [Hc H].
  apply negb_true_iff in Hc. now rewrite Hc, IH.
Qed.

Lemma removeTabNewline_full (s : string) :
  String.length (removeTabNewline s) = String.length s ->
  allChars (fun c => negb (isTabOrNewline c)) s = true.
Proof.
  induction s as [|c s IH]; [reflexivity|]. simpl.
  pose proof (removeTabNewline_length s) as Hle.
  destruct (isTabOrNewline c); simpl; intros H; [lia|].
  apply IH. lia.
Qed.

Lemma before_length (stop : ascii) (s : string) :
  String.length (before stop s) <= String.length s.
Proof.
  induction s as [|c s IH]; simpl; [lia|].
  destruct (Ascii.eqb c stop); simpl; lia.
Qed.

Lemma before_clean (stop : ascii) (s : string) :
  allChars (fun c => negb (Ascii.eqb c stop)) s = true ->
  before stop s = s.
Proof.
  induction s as [|c s IH]; [reflexivity|]. simpl. intros H.
  apply andb_true_iff in H. destruct H as [Hc H].
  apply negb_true_iff in Hc. now rewrite Hc, IH.
Qed.

Lemma before_full (stop : ascii) (s : string) :
  String.length (before stop s) = String.length s ->
  allChars (fun c => negb (Ascii.eqb c stop)) s = true.
Proof.
  induction s as [|c s IH]; [reflexivity|]. simpl.
  pose proof (before_length stop s) as Hle.
  destruct (Ascii.eqb c stop); simpl; intros H; [lia|].
  apply IH. lia.
Qed.

Lemma splitOn_head (sep : ascii) (s : string) :
  exists others, URLSearchParams.splitOn sep s = before sep s :: others.
Proof.
  induction s as [|c s [others IH]]; simpl.
  - now exists [].
  - destruct (Ascii.eqb c sep); [now eexists|].
    rewrite IH. now eexists.
Qed.

(** Where the form's href leads: the page at [/verify], with a query in
    which the identifier has lost its trailing blanks, its tabs and
    newlines and everything from the first [#], and is percent-encoded. *)
Lemma navigate_verify (id : string) :
  navigate ("/verify?job_id=" ++ id)
  = {| pathname := "/verify";
       search := "?job_id="
                 ++ queryEncode
                      (before "#" (removeTabNewline (dropTrailing id))) |}.
Proof.
  unfold navigate. cbn [String.append dropLeading].
  change (isC0OrSpace "/") with false. cbv iota.
  rewrite !dropTrailing_keep by reflexivity.
  reflexivity.
Qed.

(** What the verify page reads from such a query: the value up to the
    first [&], with [+] turned into a space and escapes decoded. *)
Lemma jobIdOf_search (path q : string) :
  jobIdOf {| pathname := path; search := "?job_id=" ++ q |}
  = Some (URLSearchParams.percentDecode
            (URLSearchParams.plusToSpace (before "&" q))).
Proof.
  unfold jobIdOf, URLSearchParams.parse. cbn [search String.append].
  change (Ascii.eqb "?" "?") with true. cbv iota.
  destruct (splitOn_head "&" (String "j" (String "o" (String "b"
              (String "_" (String "i" (String "d" (String "=" q))))))))
    as [others ->].
  reflexivity.
Qed.

Lemma verifyContext_of_id (id : string) :
  verifyContext ("/verify?job_id=" ++ id)
  = Some (Some (readBack
                  (before "&"
                     (before "#" (removeTabNewline (dropTrailing id)))))).
Proof.
  unfold verifyContext. rewrite navigate_verify. cbn [pathname].
  change (Router.route "/verify") with Router.VerifyPage. cbv iota.
  rewrite jobIdOf_search, before_encoded. reflexivity.
Qed.

(** The verify page receives exactly the identifier the form was given if
    and only if the identifier is safe in a URL. *)
Lemma handoff_is_exact_iff (id : string) :
  verifyContext ("/verify?job_id=" ++ id) = Some (Some id)
  <-> urlSafe id = true.
Proof.
  rewrite verifyContext_of_id. unfold urlSafe. split.
  - intros [= H].
    pose proof (dropTrailing_length id) as L1.
    pose proof (removeTabNewline_length (dropTrailing id)) as L2.
    pose proof (before_length "#" (removeTabNewline (dropTrailing id)))
      as L3.
    pose proof (before_length "&"
                  (before "#" (removeTabNewline (dropTrailing id)))) as L4.
    destruct (readBack_spec _ _ (le_n
               (String.length
                  (before "&"
                     (before "#" (removeTabNewline (dropTrailing id)))))))
      as [L5 Hback].
    assert (Hlen : String.length
                     (readBack
                        (before "&"
                           (before "#"
                              (removeTabNewline (dropTrailing id)))))
                   = String.length id) by now rewrite H.
    assert (E1 : endsClean id = true)
      by (apply dropTrailing_full; lia).
    rewrite (dropTrailing_clean id E1) in *.
    assert (E2 : allChars (fun c => negb (isTabOrNewline c)) id = true)
      by (apply removeTabNewline_full; lia).
    rewrite (removeTabNewline_clean id E2) in *.
    assert (E3 : allChars (fun c => negb (Ascii.eqb c "#")) id = true)
      by (apply before_full; lia).
    rewrite (before_clean "#" id E3) in *.
    assert (E4 : allChars (fun c => negb (Ascii.eqb c "&")) id = true)
      by (apply before_full; lia).
    rewrite (before_clean "&" id E4) in *.
    destruct (Hback H) as [E5 E6].
    now rewrite E1, E2, E3, E4, E5, E6.
  - intros H.
    apply andb_true_iff in H. destruct H as [H A6].
    apply andb_true_iff in H. destruct H as [H A5].
    apply andb_true_iff in H. destruct H as [H A4].
    apply andb_true_iff in H. destruct H as [H A3].
    apply andb_true_iff in H. destruct H as [A1 A2].
    rewrite (dropTrailing_clean id A6), (removeTabNewline_clean id A4).
    rewrite (before_clean "#" id A2), (before_clean "&" id A1).
    now rewrite (readBack_safe id A3 A5).
Qed.

End UrlParsing.

Section HandOff.

Variable net : network.

(** C1, as the code has it.  On submit of a valid draft: a response whose
    JSON carries a non-empty string [job_id] makes the form send its one
    request and navigate to [/verify?job_id=] followed by the identifier
    as it is, without encoding; that opens the verify page, and the
    verify page starts with exactly that identifier if and only if the
    identifier has no [&], [#], [+], tab or newline, no [%] followed by
    two hex digits, and does not end in a space or control character.
    When the transport fails, the body is not JSON or the JSON has no
    [job_id], the form sends its one request, logs the error and raises
    the single alert "Submission failed." with no navigation, so the
    verify page, which alone polls, is not opened.  Either way the draft
    is returned unchanged. *)
Theorem submit_hands_off_url_safe_job_id (fd : formData) :
  validDraft fd ->
  (forall res j id,
     net (submitRequest fd) = Ok res -> json_body res = Ok j ->
     prop j "job_id" = Ok (Val (JStr id)) -> id <> "" ->
     handleSubmit net fd
     = (fd, [Fetch (submitRequest fd); Navigate ("/verify?job_id=" ++ id)])
     /\
     Router.route (pathname (navigate ("/verify?job_id=" ++ id)))
     = Router.VerifyPage /\
     opensVerify (snd (handleSubmit net fd)) = true /\
     (verifyContext ("/verify?job_id=" ++ id) = Some (Some id)
      <-> urlSafe id = true))
  /\
  (submitFails net (submitRequest fd) ->
   (exists err,
      handleSubmit net fd
      = (fd, [Fetch (submitRequest fd); ConsoleError err;
              Alert "Submission failed."])) /\
   alerts (snd (handleSubmit net fd)) = ["Submission failed."] /\
   navigations (snd (handleSubmit net fd)) = [] /\
   opensVerify (snd (handleSubmit net fd)) = false /\
   fetches (snd (handleSubmit net fd)) = [submitRequest fd] /\
   fst (handleSubmit net fd) = fd).
Proof.
  intros Hv. destruct (handleSubmit_outcomes net fd Hv) as [Hok Hfail].
  split.
  - intros res j id Hn Hb Hp Hid.
    pose proof (Hok res j id Hn Hb Hp Hid) as Hnav.
    split; [exact Hnav|]. split; [now rewrite navigate_verify|].
    split; [|apply handoff_is_exact_iff].
    rewrite Hnav. unfold opensVerify. cbn [snd navigations flat_map app].
    cbn [existsb]. now rewrite navigate_verify.
  - intros Hf. destruct (Hfail Hf) as [He [Ha [Hn [Hfe Hst]]]].
    repeat split; auto. unfold opensVerify. now rewrite Hn.
Qed.

End HandOff.

(** C1 as stated fails: the identifier goes into the URL unencoded, so
    an identifier with [&] or [#] reaches the verify page cut short, one
    with [+] with a space in its place and one with a percent escape
    decoded. *)
Lemma unencoded_job_id_is_not_handed_off :
  handleSubmit (replies (JObj [("job_id", JStr "a&job_id=b")])) zipDraft
  = (zipDraft, [Fetch (submitRequest zipDraft);
                Navigate "/verify?job_id=a&job_id=b"]) /\
  verifyContext "/verify?job_id=a&job_id=b" = Some (Some "a") /\
  verifyContext "/verify?job_id=a#b" = Some (Some "a") /\
  verifyContext "/verify?job_id=a+b" = Some (Some "a b") /\
  verifyContext "/verify?job_id=a%41b" = Some (Some "aAb").
Proof. repeat split. Qed.

(** C1 as amended, on the examples of the spec: [{job_id: "abc-123"}]
    hands off exactly [abc-123], and [{}] ends in the failure alert. *)
Lemma submit_hands_off_url_safe_job_id_witness :
  handleSubmit (replies (JObj [("job_id", JStr "abc-123")])) zipDraft
  = (zipDraft, [Fetch (submitRequest zipDraft);
                Navigate "/verify?job_id=abc-123"]) /\
  verifyContext "/verify?job_id=abc-123" = Some (Some "abc-123") /\
  alerts (snd (handleSubmit (replies (JObj [])) zipDraft))
  = ["Submission failed."] /\
  navigations (snd (handleSubmit (replies (JObj [])) zipDraft)) = [].
Proof.
  assert (Hv : validDraft zipDraft).
  { repeat split; try discriminate. intros H. now elim H. }
  destruct (proj1 (submit_hands_off_url_safe_job_id
                     (replies (JObj [("job_id", JStr "abc-123")]))
                     zipDraft Hv)
                  {| json_body := Ok (JObj [("job_id", JStr "abc-123")]) |}
                  (JObj [("job_id", JStr "abc-123")]) "abc-123"
                  eq_refl eq_refl eq_refl)
    as [Hnav [_ [_ Hiff]]].
  { discriminate. }
  split; [exact Hnav|]. split; [exact (proj2 Hiff eq_refl)|].
  assert (Hf : submitFails (replies (JObj [])) (submitRequest zipDraft)).
  { right. right. exists {| json_body := Ok (JObj []) |}, (JObj []).
    repeat split. intros v. discriminate. }
  destruct (proj2 (submit_hands_off_url_safe_job_id
                     (replies (JObj [])) zipDraft Hv) Hf)
    as [_ [Ha [Hn _]]].
  split; [exact Ha | exact Hn].
Defined.
